(** * MetsuDiskSpaceViewer: the directory-size cache and its refresh engine

    A shallow embedding of [disk-space-view-pro.py]: the signature and
    record codec, the cached folder-size calculator, the top-N snapshot
    builder, the consistency reconciler, the rebuild scheduler of [main]
    and the volume filter, followed by the properties of the
    specification that concern them.

    Conventions.  Python integers are [Z].  Wall-clock readings
    ([time.time()]) and stored timestamps are taken in whole seconds, as
    [Z].  A path is the string of its UTF-8 bytes.  Values read back from
    a JSON file are kept as JSON values ([json]), since the code uses them
    without checking their type. *)

From Stdlib Require Import ZArith List String Ascii Bool Lia Permutation Sorted.
From Stdlib Require Import DecimalString QArith Qabs Lqa.
From stdpp Require Import base option gmap strings.
Import ListNotations.

Local Open Scope string_scope.
Local Open Scope list_scope.
Local Open Scope Z_scope.

(* ===================================================================== *)
(** * Part I: the program                                                 *)
(* ===================================================================== *)

(** ** JSON values, as [json.load] returns them *)

#[local] Set Warnings "-register-all".

Inductive json : Type :=
| JNull
| JBool (b : bool)
| JNum (n : Z)
| JStr (s : string)
| JArr (l : list json)
| JObj (kv : list (string * json)).

(** [key in data] and [data[key]] on a dict. *)
Fixpoint assoc (k : string) (kv : list (string * json)) : option json :=
  match kv with
  | [] => None
  | (k', v) :: rest => if String.eqb k k' then Some v else assoc k rest
  end.

(** [sub in s] on strings. *)
Fixpoint contains (sub s : string) : bool :=
  String.prefix sub s ||
  match s with
  | EmptyString => false
  | String _ rest => contains sub rest
  end.

(** ** hashlib.md5 (RFC 1321), on bytes held as [Z] *)

Module MD5.

Definition mask32 (x : Z) : Z := Z.land x 4294967295.

Definition add32 (x y : Z) : Z := mask32 (x + y).

Definition rotl32 (x : Z) (s : Z) : Z :=
  mask32 (Z.lor (Z.shiftl x s) (Z.shiftr x (32 - s))).

Definition not32 (x : Z) : Z := Z.lxor x 4294967295.

Definition T : list Z :=
  [ 3614090360; 3905402710; 606105819; 3250441966;
    4118548399; 1200080426; 2821735955; 4249261313;
    1770035416; 2336552879; 4294925233; 2304563134;
    1804603682; 4254626195; 2792965006; 1236535329;
    4129170786; 3225465664; 643717713; 3921069994;
    3593408605; 38016083; 3634488961; 3889429448;
    568446438; 3275163606; 4107603335; 1163531501;
    2850285829; 4243563512; 1735328473; 2368359562;
    4294588738; 2272392833; 1839030562; 4259657740;
    2763975236; 1272893353; 4139469664; 3200236656;
    681279174; 3936430074; 3572445317; 76029189;
    3654602809; 3873151461; 530742520; 3299628645;
    4096336452; 1126891415; 2878612391; 4237533241;
    1700485571; 2399980690; 4293915773; 2240044497;
    1873313359; 4264355552; 2734768916; 1309151649;
    4149444226; 3174756917; 718787259; 3951481745 ].

Definition S : list Z :=
  [ 7; 12; 17; 22; 7; 12; 17; 22; 7; 12; 17; 22; 7; 12; 17; 22;
    5; 9; 14; 20; 5; 9; 14; 20; 5; 9; 14; 20; 5; 9; 14; 20;
    4; 11; 16; 23; 4; 11; 16; 23; 4; 11; 16; 23; 4; 11; 16; 23;
    6; 10; 15; 21; 6; 10; 15; 21; 6; 10; 15; 21; 6; 10; 15; 21 ].

Definition bytes_of_string (s : string) : list Z :=
  map (fun c => Z.of_N (N_of_ascii c)) (list_ascii_of_string s).

(** Little-endian bytes of a value, [n] of them. *)
Fixpoint le_bytes (n : nat) (x : Z) : list Z :=
  match n with
  | O => []
  | Datatypes.S n' => Z.land x 255 :: le_bytes n' (Z.shiftr x 8)
  end.

Definition pad (msg : list Z) : list Z :=
  let len := Z.of_nat (length msg) in
  let zeros := Z.to_nat ((55 - len) mod 64) in
  msg ++ 128 :: repeat 0 zeros ++ le_bytes 8 (Z.land (8 * len) 18446744073709551615).

Fixpoint words (n : nat) (bs : list Z) : list Z :=
  match n with
  | O => []
  | Datatypes.S n' =>
      match bs with
      | b0 :: b1 :: b2 :: b3 :: rest =>
          (b0 + Z.shiftl b1 8 + Z.shiftl b2 16 + Z.shiftl b3 24) :: words n' rest
      | _ => []
      end
  end.

Record regs := Regs { rA : Z; rB : Z; rC : Z; rD : Z }.

Definition init : regs :=
  Regs 1732584193 4023233417 2562383102 271733878.

Definition step (M : list Z) (r : regs) (i : nat) : regs :=
  let '(Regs a b c d) := r in
  let iz := Z.of_nat i in
  let '(f, g) :=
    if iz <? 16 then (Z.lor (Z.land b c) (Z.land (not32 b) d), iz)
    else if iz <? 32 then (Z.lor (Z.land d b) (Z.land (not32 d) c), (5 * iz + 1) mod 16)
    else if iz <? 48 then (Z.lxor (Z.lxor b c) d, (3 * iz + 5) mod 16)
    else (Z.lxor c (Z.lor b (not32 d)), (7 * iz) mod 16) in
  let x := add32 (add32 (add32 a f) (nth i T 0)) (nth (Z.to_nat g) M 0) in
  Regs d (add32 b (rotl32 x (nth i S 0))) b c.

Definition block (r : regs) (M : list Z) : regs :=
  let r' := fold_left (step M) (seq 0 64) r in
  Regs (add32 (rA r) (rA r')) (add32 (rB r) (rB r'))
       (add32 (rC r) (rC r')) (add32 (rD r) (rD r')).

Fixpoint blocks (n : nat) (bs : list Z) (r : regs) : regs :=
  match n with
  | O => r
  | Datatypes.S n' => blocks n' (skipn 64 bs) (block r (words 16 (firstn 64 bs)))
  end.

Definition digest (msg : list Z) : list Z :=
  let p := pad msg in
  let r := blocks (length p / 64) p init in
  le_bytes 4 (rA r) ++ le_bytes 4 (rB r) ++ le_bytes 4 (rC r) ++ le_bytes 4 (rD r).

Definition hex_digit (x : Z) : ascii :=
  nth (Z.to_nat x)
      (list_ascii_of_string "0123456789abcdef") "0"%char.

Fixpoint hex (bs : list Z) : string :=
  match bs with
  | [] => EmptyString
  | b :: rest =>
      String (hex_digit (Z.shiftr b 4)) (String (hex_digit (Z.land b 15)) (hex rest))
  end.

(** [hashlib.md5(s.encode('utf-8')).hexdigest()] *)
Definition hexdigest (s : string) : string := hex (digest (bytes_of_string s)).

End MD5.

(** [str(n)] of a Python integer. *)
Definition py_str (n : Z) : string := NilZero.string_of_int (Z.to_int n).

(** ** Directories as the calculator sees them *)

(** What [os.stat] returns; only two fields are read by the program. *)
Record stat_result := Stat {
  st_dev : Z;
  st_ino : Z;
  st_mode : Z;
  st_size : Z;
  st_mtime : Z
}.

(** The record file [.mosFolderSize] of a directory. *)
Inductive cache_file : Type :=
| NoFile                    (* [cache_file.exists()] is false *)
| Unreadable                (* the file exists, [open] raises *)
| Garbage                   (* [json.load] raises JSONDecodeError *)
| Payload (data : json).    (* [json.load] returns [data] *)

(** A directory tree.  [d_stat] is the outcome of [os.stat] on the
    directory ([None]: it raises); [d_listable] tells whether [os.walk]
    can list it; [d_files] holds, per regular file that [os.walk] reports,
    the outcome of [os.path.getsize] ([None]: OSError); [d_writable] tells
    whether the record file can be opened for writing. *)
Inductive dir : Type :=
  Dir {
    d_path : string;
    d_stat : option stat_result;
    d_cache : cache_file;
    d_writable : bool;
    d_listable : bool;
    d_files : list (option Z);
    d_subdirs : list dir
  }.

(** [time.time()]: the [k]-th reading of the process is [clk k]; functions
    that read the clock take the index of the next reading and return the
    index that follows. *)
Definition clock := nat -> Z.

Definition CACHE_FILE_NAME : string := ".mosFolderSize".
Definition FOLDER_CACHE_VALIDITY_HOURS : Z := 12.
Definition FOLDER_CACHE_VALIDITY_SECONDS : Z := FOLDER_CACHE_VALIDITY_HOURS * 3600.
Definition DISK_CACHE_VALIDITY_HOURS : Z := 3.
Definition DISK_CACHE_VALIDITY_SECONDS : Z := DISK_CACHE_VALIDITY_HOURS * 3600.

(** ** calculate_folder_signature *)

Definition calculate_folder_signature
    (os_stat : string -> option stat_result) (folder_path : string) : string :=
  match os_stat folder_path with
  | Some st =>
      let signature_data :=
        (folder_path ++ ":" ++ py_str (st_dev st) ++ ":" ++ py_str (st_ino st))%string in
      substring 0 8 (MD5.hexdigest signature_data)
  | None => "00000000"
  end.

(** The signature of a node of the tree. *)
Definition dir_signature (d : dir) : string :=
  calculate_folder_signature (fun _ => d_stat d) (d_path d).

(** ** read_cached_folder_size *)

(** A value used where Python wants a number: [int], and [bool] as 0/1;
    anything else raises TypeError ([None]). *)
Definition as_number (v : json) : option Z :=
  match v with
  | JNum n => Some n
  | JBool b => Some (if b then 1 else 0)
  | _ => None
  end.

(** [a != b] for a JSON value [a] and a [str] [b]. *)
Definition differs_from_str (a : json) (b : string) : bool :=
  match a with
  | JStr s => negb (String.eqb s b)
  | _ => true
  end.

(** A Python value handed back to the caller: JSON [null] is [None]. *)
Definition py_return (v : json) : option json :=
  match v with
  | JNull => None
  | _ => Some v
  end.

(** [key in data]: a key test on a dict, a membership test on a list, a
    substring test on a str; TypeError ([None]) on anything else. *)
Definition py_in (key : string) (data : json) : option bool :=
  match data with
  | JObj kv => Some (match assoc key kv with Some _ => true | None => false end)
  | JArr l =>
      Some (existsb (fun x => match x with JStr s => String.eqb s key | _ => false end) l)
  | JStr s => Some (contains key s)
  | _ => None
  end.

(** [all(key in data for key in keys)], left to right. *)
Fixpoint all_in (keys : list string) (data : json) : option bool :=
  match keys with
  | [] => Some true
  | key :: rest =>
      match py_in key data with
      | Some true => all_in rest data
      | other => other
      end
  end.

(** [data[key]] for a str key: defined on a dict that has the key. *)
Definition py_getitem (data : json) (key : string) : option json :=
  match data with
  | JObj kv => assoc key kv
  | _ => None
  end.

(** The body of the [try]; the outer [option] is [None] when it raises.
    The second component is the clock index after the call. *)
Definition read_cached_body (clk : clock) (k : nat) (d : dir)
  : option (option json) * nat :=
  match d_cache d with
  | NoFile => (Some None, k)
  | Unreadable => (None, k)
  | Garbage => (None, k)
  | Payload data =>
      match all_in ["timestamp"; "size"; "signature"] data with
      | None => (None, k)
      | Some false => (Some None, k)
      | Some true =>
          let current_time := clk k in
          match py_getitem data "timestamp" with
          | None => (None, S k)
          | Some timestamp =>
              match as_number timestamp with
              | None => (None, S k)
              | Some ts =>
                  if current_time - ts >? FOLDER_CACHE_VALIDITY_SECONDS
                  then (Some None, S k)
                  else
                    let expected_signature := dir_signature d in
                    match py_getitem data "signature" with
                    | None => (None, S k)
                    | Some signature =>
                        if differs_from_str signature expected_signature
                        then (Some None, S k)
                        else
                          match py_getitem data "size" with
                          | None => (None, S k)
                          | Some size => (Some (py_return size), S k)
                          end
                    end
              end
          end
      end
  end.

Definition read_cached_folder_size (clk : clock) (k : nat) (d : dir)
  : option json * nat :=
  match read_cached_body clk k d with
  | (Some r, k') => (r, k')
  | (None, k') => (None, k')
  end.

(** ** write_cached_folder_size *)

Definition cache_record (now : Z) (size : Z) (signature : string) : json :=
  JObj [ ("timestamp", JNum now);
         ("size", JNum size);
         ("signature", JStr signature);
         ("version", JStr "1.0");
         ("generated_by", JStr "disk_usage_monitor_pro") ].

Definition with_cache (d : dir) (c : cache_file) : dir :=
  Dir (d_path d) (d_stat d) c (d_writable d) (d_listable d) (d_files d) (d_subdirs d).

(** Returns the directory after the call, the boolean the function
    returns and the next clock index. *)
Definition write_cached_folder_size (clk : clock) (k : nat) (d : dir) (size : Z)
  : dir * bool * nat :=
  let data := cache_record (clk k) size (dir_signature d) in
  if d_writable d
  then (with_cache d (Payload data), true, S k)
  else (d, false, S k).

(** ** calculate_folder_size_with_cache *)

(** [total_size += v] for a value that came out of a record. *)
Definition py_add (total_size : Z) (v : json) : option Z :=
  match as_number v with
  | Some n => Some (total_size + n)
  | None => None
  end.

(** The loop [for dir_name in dirs[:]]: returns the clock index it
    reached and, unless the addition raised ([None]), the total and, per
    subdirectory, whether it stays in [dirs]. *)
Fixpoint scan_subdirs (clk : clock) (k : nat) (total_size : Z) (dirs : list dir)
  : nat * option (Z * list bool) :=
  match dirs with
  | [] => (k, Some (total_size, []))
  | sub :: rest =>
      match read_cached_folder_size clk k sub with
      | (Some subdir_cached_size, k1) =>
          match py_add total_size subdir_cached_size with
          | Some total1 =>
              match scan_subdirs clk k1 total1 rest with
              | (k2, Some (total2, keep)) => (k2, Some (total2, false :: keep))
              | (k2, None) => (k2, None)
              end
          | None => (k1, None)
          end
      | (None, k1) =>
          match scan_subdirs clk k1 total_size rest with
          | (k2, Some (total2, keep)) => (k2, Some (total2, true :: keep))
          | (k2, None) => (k2, None)
          end
      end
  end.

(** The loop [for file in files]: a failing [getsize] is passed over. *)
Fixpoint add_files (total_size : Z) (files : list (option Z)) : Z :=
  match files with
  | [] => total_size
  | Some sz :: rest => add_files (total_size + sz) rest
  | None :: rest => add_files total_size rest
  end.

(** State of the loop over [os.walk]. *)
Inductive walk_state : Type :=
| Walking (k : nat) (total_size : Z)
| Stopped (k : nat) (total_size : Z)      (* left through [break] *)
| Raised (k : nat).                       (* an exception is in flight *)

(** [os.walk] goes on with the subdirectories still in [dirs], in
    order; [walk_sub] is the walk of one of them. *)
Definition walk_kept (walk_sub : dir -> walk_state -> walk_state)
  : list dir -> list bool -> walk_state -> walk_state :=
  fix go (subs : list dir) (keep : list bool) (st : walk_state) : walk_state :=
    match subs, keep with
    | sub :: subs', true :: keep' => go subs' keep' (walk_sub sub st)
    | _ :: subs', false :: keep' => go subs' keep' st
    | _, _ => st
    end.

(** One directory yielded by [os.walk], then the directories kept in
    [dirs], depth first.  A directory that cannot be listed yields
    nothing. *)
Fixpoint walk (clk : clock) (start_time : Z) (d : dir) (st : walk_state) : walk_state :=
  match st with
  | Walking k total_size =>
      if negb (d_listable d) then st
      else
        match scan_subdirs clk k total_size (d_subdirs d) with
        | (k1, None) => Raised k1
        | (k1, Some (total1, keep)) =>
            let total2 := add_files total1 (d_files d) in
            if clk k1 - start_time >? 300
            then Stopped (S k1) total2
            else walk_kept (walk clk start_time) (d_subdirs d) keep
                           (Walking (S k1) total2)
        end
  | _ => st
  end.

(** What a call leaves behind: the value returned, the tree afterwards,
    the next clock index, and whether control reached [os.walk]. *)
Record calc_result := Calc {
  value : json;
  tree : dir;
  ticks : nat;
  walked : bool
}.

Definition calculate_folder_size_with_cache (clk : clock) (k : nat) (d : dir)
  : calc_result :=
  match read_cached_folder_size clk k d with
  | (Some cached_size, k0) => Calc cached_size d k0 false
  | (None, k0) =>
      let start_time := clk k0 in
      match walk clk start_time d (Walking (S k0) 0) with
      | Raised k1 => Calc (JNum 0) d k1 true
      | Walking k1 total_size | Stopped k1 total_size =>
          if total_size >? 0
          then let '(d', _, k2) := write_cached_folder_size clk k1 d total_size in
               Calc (JNum total_size) d' k2 true
          else Calc (JNum total_size) d k1 true
      end
  end.

(** ** Snapshots and effects on the cache directory *)

Record level3_item := L3 { l3_path : string; l3_size : Z }.

Record level2_item := L2 {
  l2_path : string;
  l2_size : Z;
  level_3 : list level3_item
}.

Record level1_item := L1 {
  l1_path : string;
  l1_size : Z;
  level_2 : list level2_item
}.

(** The per-volume JSON document.  [s_root] holds the keys ['path'] and
    ['size'] that only the fallback build puts at the top. *)
Record snapshot := Snapshot {
  disk_mount : string;
  s_timestamp : Z;
  s_percent : Q;
  s_root : option (string * Z);
  level_1 : list level1_item
}.

(** Writes issued against the file system, in program order. *)
Inductive effect : Type :=
| WriteFolderSize (folder_path : string) (size : Z)     (* [write_cached_folder_size] *)
| WriteSnapshot (cache_file : string) (data : snapshot). (* [json.dump] to a cache_*.json *)

(** The snapshot files of [CACHE_DIR], by file name. *)
Definition apply_effect (store : gmap string snapshot) (e : effect) : gmap string snapshot :=
  match e with
  | WriteFolderSize _ _ => store
  | WriteSnapshot cache_file data => <[cache_file := data]> store
  end.

Definition apply_effects (store : gmap string snapshot) (es : list effect)
  : gmap string snapshot :=
  fold_left apply_effect es store.

Fixpoint string_map (f : ascii -> ascii) (s : string) : string :=
  match s with
  | EmptyString => EmptyString
  | String c rest => String (f c) (string_map f rest)
  end.

(** [disk_mount.replace('/', '_').replace(':', '_').replace('\\', '_')] *)
Definition safe_name (disk_mount : string) : string :=
  string_map (fun c =>
    if (Ascii.eqb c "/" || Ascii.eqb c ":" || Ascii.eqb c "\")%char%bool
    then "_"%char else c) disk_mount.

Definition cache_file_of (disk_mount : string) : string :=
  ("cache_" ++ safe_name disk_mount ++ ".json")%string.

(** ** The snapshot builder *)

(** What the builder asks of its surroundings.  [scandir_dirs p] is
    [[e.path for e in os.scandir(p) if e.is_dir()]], [None] when it
    raises.  [run_du dirs] is the [du] subprocess on a non-empty list:
    [None] on timeout or failure, else one entry per output line, [None]
    for a line without a tab or whose size does not parse.
    [size_with_cache p] is what [calculate_folder_size_with_cache] returns
    for [p], an integer whenever the records it meets hold integers.
    [disk_usage_percent m] is [psutil.disk_usage(m).percent]. *)
Record facilities := Facilities {
  scandir_dirs : string -> option (list string);
  run_du : list string -> option (list (option (string * Z)));
  size_with_cache : string -> Z;
  disk_usage_percent : string -> option Q
}.

Definition fast_get_dir_sizes (F : facilities) (dirs_list : list string)
  : list (string * Z) :=
  match dirs_list with
  | [] => []
  | _ =>
      match run_du F dirs_list with
      | Some lines => omap id lines
      | None => []
      end
  end.

(** [l.sort(key=lambda x: x[1], reverse=True)]: descending on the size,
    entries of equal size in their former order. *)
Fixpoint insert_desc (x : string * Z) (l : list (string * Z)) : list (string * Z) :=
  match l with
  | [] => [x]
  | y :: rest => if snd x <? snd y then y :: insert_desc x rest else x :: y :: rest
  end.

Fixpoint sort_desc (l : list (string * Z)) : list (string * Z) :=
  match l with
  | [] => []
  | x :: rest => insert_desc x (sort_desc rest)
  end.

(** [l[:n]], also for a negative [n]. *)
Definition py_slice_to {A : Type} (l : list A) (n : Z) : list A :=
  if 0 <=? n then firstn (Z.to_nat n) l
  else firstn (length l - Z.to_nat (- n)) l.

Definition get_top_subdirs (F : facilities) (directory : string) (top_n : Z)
  : list (string * Z) :=
  match scandir_dirs F directory with
  | None => []
  | Some [] => []
  | Some subdirs =>
      let sizes := map (fun subdir => (subdir, size_with_cache F subdir)) subdirs in
      py_slice_to (sort_desc sizes) top_n
  end.

Definition get_hierarchical_sizes (F : facilities) (directory : string)
    (levels : Z) (top_n : Z) : (string * Z) * list level1_item :=
  let size := size_with_cache F directory in
  let build3 (path2 : string) :=
    if levels >=? 3
    then map (fun '(path3, size3) => L3 path3 size3) (get_top_subdirs F path2 top_n)
    else [] in
  let build2 (path1 : string) :=
    if levels >=? 2
    then map (fun '(path2, size2) => L2 path2 size2 (build3 path2))
             (get_top_subdirs F path1 top_n)
    else [] in
  let level_1 :=
    if levels >=? 1
    then map (fun '(path1, size1) => L1 path1 size1 (build2 path1))
             (get_top_subdirs F directory top_n)
    else [] in
  ((directory, size), level_1).

Definition slow_get_hierarchical_sizes (F : facilities) (disk_mount : string)
    (top_n : Z) : option ((string * Z) * list level1_item) :=
  Some (get_hierarchical_sizes F disk_mount 3 top_n).

(** The sizes of the subdirectories of a level-1 or level-2 node inside
    [update_cache_thread]: [du] first, [get_top_subdirs] when it yields
    nothing; [None] when [os.scandir] raises. *)
Definition top_of_node (F : facilities) (path : string) (top_n : Z)
  : option (list (string * Z)) :=
  match scandir_dirs F path with
  | None => None
  | Some [] => Some []
  | Some subdirs =>
      let top := fast_get_dir_sizes F subdirs in
      let top := match top with [] => get_top_subdirs F path top_n | _ => top end in
      Some (py_slice_to (sort_desc top) top_n)
  end.

Definition build_level_2 (F : facilities) (top_n : Z) (entry : string * Z)
  : option level2_item :=
  let '(path2, size2) := entry in
  top_level_3 ← top_of_node F path2 top_n;
  Some (L2 path2 size2 (map (fun '(path3, size3) => L3 path3 size3) top_level_3)).

Definition build_level_1 (F : facilities) (top_n : Z) (entry : string * Z)
  : option level1_item :=
  let '(path1, size1) := entry in
  top_level_2 ← top_of_node F path1 top_n;
  level_2 ← mapM (build_level_2 F top_n) top_level_2;
  Some (L1 path1 size1 level_2).

Inductive build_result : Type :=
| BuildRaised               (* the outer [except] caught something *)
| NoSubdirs                 (* the early [return] *)
| Built (data : snapshot).  (* [hierarchical_data], with its percent *)

(** [update_cache_thread] up to the decision to write. *)
Definition build_hierarchical_data (F : facilities) (now : Z)
    (disk_mount : string) (top_n : Z) : build_result :=
  match scandir_dirs F disk_mount with
  | None => BuildRaised
  | Some [] => NoSubdirs
  | Some subdirs =>
      let hierarchical_data :=
        match fast_get_dir_sizes F subdirs with
        | [] =>
            '(root, level_1) ← slow_get_hierarchical_sizes F disk_mount top_n;
            Some (now, Some root, level_1)
        | top_level_1 =>
            level_1 ← mapM (build_level_1 F top_n)
                           (py_slice_to (sort_desc top_level_1) top_n);
            Some (now, None, level_1)
        end in
      match hierarchical_data with
      | None => BuildRaised
      | Some (ts, root, level_1) =>
          match disk_usage_percent F disk_mount with
          | None => BuildRaised
          | Some percent => Built (Snapshot disk_mount ts percent root level_1)
          end
      end
  end.

Definition update_cache_thread (F : facilities) (now : Z)
    (disk_mount : string) (top_n : Z) : list effect :=
  match build_hierarchical_data F now disk_mount top_n with
  | Built hierarchical_data =>
      match level_1 hierarchical_data with
      | [] => []
      | _ => [WriteSnapshot (cache_file_of disk_mount) hierarchical_data]
      end
  | _ => []
  end.

(** ** The consistency reconciler: one round of [background_cache_fix] *)

Definition sum_level3_sizes (items : list level3_item) : Z :=
  fold_right (fun item acc => l3_size item + acc) 0 items.

Definition sum_level2_sizes (items : list level2_item) : Z :=
  fold_right (fun item acc => l2_size item + acc) 0 items.

(** The loop [for level2 in level1.get('level_2', [])], carrying the
    flag [modified]. *)
Fixpoint fix_level2_list (items : list level2_item) (modified : bool)
  : list level2_item * bool * list effect :=
  match items with
  | [] => ([], modified, [])
  | level2 :: rest =>
      let sum_level3 := sum_level3_sizes (level_3 level2) in
      if sum_level3 >? l2_size level2
      then
        let '(rest', modified', effs) := fix_level2_list rest true in
        (L2 (l2_path level2) sum_level3 (level_3 level2) :: rest',
         modified',
         WriteFolderSize (l2_path level2) sum_level3 :: effs)
      else
        let '(rest', modified', effs) := fix_level2_list rest modified in
        (level2 :: rest', modified', effs)
  end.

(** The loop [for level1 in level1_list].  The sum over the level-2
    children is taken before the inner loop touches them. *)
Fixpoint fix_level1_list (items : list level1_item) (modified : bool)
  : list level1_item * bool * list effect :=
  match items with
  | [] => ([], modified, [])
  | level1 :: rest =>
      let sum_level2 := sum_level2_sizes (level_2 level1) in
      let '(size1, modified1, effs1) :=
        if sum_level2 >? l1_size level1
        then (sum_level2, true, [WriteFolderSize (l1_path level1) sum_level2])
        else (l1_size level1, modified, []) in
      let '(children, modified2, effs2) := fix_level2_list (level_2 level1) modified1 in
      let '(rest', modified3, effs3) := fix_level1_list rest modified2 in
      (L1 (l1_path level1) size1 children :: rest', modified3, effs1 ++ effs2 ++ effs3)
  end.

Definition fix_snapshot (data : snapshot) : snapshot * bool * list effect :=
  let '(level1_list, modified, effs) := fix_level1_list (level_1 data) false in
  (Snapshot (disk_mount data) (s_timestamp data) (s_percent data) (s_root data) level1_list,
   modified, effs).

(** One file of the glob; [None] stands for a file on which [open] or
    [json.load] raises, which the inner [except] passes over. *)
Definition fix_cache_file (cache_path : string) (content : option snapshot)
  : list effect :=
  match content with
  | None => []
  | Some data =>
      let '(data', modified, effs) := fix_snapshot data in
      effs ++ (if modified then [WriteSnapshot cache_path data'] else [])
  end.


(** The snapshot as the round leaves it in memory. *)
Definition reconciled (data : snapshot) : snapshot := fst (fst (fix_snapshot data)).

(** ** The rebuild scheduler inside [main] *)

Definition is_cache_outdated (now : Z) (timestamp : option Z) (max_age_seconds : Z) : bool :=
  match timestamp with
  | None => true
  | Some ts => now - ts >? max_age_seconds
  end.

(** [active_threads] maps a mount to its thread and start time.
    [running] holds the threads for which [is_alive()] is true, each with
    the mount it was started on. *)
Record sched := Sched {
  active_threads : gmap string (nat * Z);
  running : gmap nat string;
  next_thread : nat
}.

Definition sched_init : sched := Sched ∅ ∅ 0.

Definition is_alive (s : sched) (thread : nat) : bool :=
  match running s !! thread with Some _ => true | None => false end.

(** [t = threading.Thread(target=update_cache_thread, args=(mount, ..));
    t.start(); active_threads[mount] = (t, start_time)] *)
Definition start_rebuild (s : sched) (mount : string) (start_time : Z) : sched :=
  let t := next_thread s in
  Sched (<[mount := (t, start_time)]> (active_threads s))
        (<[t := mount]> (running s))
        (S t).

(** "Limpieza de threads terminados" *)
Definition cleanup (s : sched) : sched :=
  Sched (filter (fun entry => is_alive s (fst (snd entry)) = true) (active_threads s))
        (running s)
        (next_thread s).

(** What the scheduling loop sees of one disk: the timestamp returned by
    [load_cache] and two readings of the clock. *)
Record observation := Obs {
  o_mount : string;
  o_ts : option Z;
  o_now : Z;
  o_start : Z
}.

Definition schedule_one (s : sched) (o : observation) : sched :=
  if (match o_ts o with None => true | Some _ => false end
      || is_cache_outdated (o_now o) (o_ts o) DISK_CACHE_VALIDITY_SECONDS)
     && negb (bool_decide (is_Some (active_threads s !! o_mount o)))
  then start_rebuild s (o_mount o) (o_start o)
  else s.

Definition schedule_pass (s : sched) (disks : list observation) : sched :=
  fold_left schedule_one disks (cleanup s).

(** Key [r] of the paginated view, as far as threads are concerned. *)
Definition manual_refresh (s : sched) (mount : string) (now : Z) : sched :=
  if bool_decide (is_Some (active_threads s !! mount)) then s
  else start_rebuild s mount now.

(** A rebuild thread returns, normally or through its [except]. *)
Definition thread_finishes (s : sched) (thread : nat) : sched :=
  Sched (active_threads s) (delete thread (running s)) (next_thread s).

Inductive event : Type :=
| Pass (disks : list observation)
| Refresh (mount : string) (now : Z)
| Finish (thread : nat).

Definition sched_step (s : sched) (e : event) : sched :=
  match e with
  | Pass disks => schedule_pass s disks
  | Refresh mount now => manual_refresh s mount now
  | Finish thread => thread_finishes s thread
  end.

Definition sched_run (es : list event) : sched := fold_left sched_step es sched_init.

(** ** get_physical_disks_info *)

Record partition := Partition {
  p_device : string;
  p_mountpoint : string;
  p_fstype : string
}.

(** [psutil.disk_usage]; the percent it reports is not read here. *)
Record usage := Usage { u_total : Z; u_used : Z; u_free : Z }.

Record disk_info := DiskInfo {
  mountpoint : string;
  vol_name : string;
  total : Z;
  used : Z;
  free : Z;
  percent : Q
}.

Definition is_system_volume (mountpoint : string) : bool :=
  existsb (fun p => String.prefix p mountpoint)
    [ "/System/Volumes/Data"; "/System/Volumes/Preboot";
      "/System/Volumes/Update"; "/System/Volumes/VM";
      "/System/Volumes/iSCPreboot"; "/private/var/vm" ].

Definition pseudo_fstypes : list string := ["devfs"; "autofs"; "tmpfs"; "devtmpfs"].

(** [s.rstrip('/')] *)
Fixpoint rstrip_slash (s : string) : string :=
  match s with
  | EmptyString => EmptyString
  | String c rest =>
      match rstrip_slash rest with
      | EmptyString => if Ascii.eqb c "/" then EmptyString else String c EmptyString
      | rest' => String c rest'
      end
  end.

(** [path_name p] stands for pathlib's [Path(p).name]. *)
Definition get_volume_name (path_name : string -> string) (mountpoint : string) : string :=
  if String.eqb mountpoint "/" then "root" else path_name (rstrip_slash mountpoint).

(** [100.0 * used / total] is kept as the exact quotient. *)
Definition disk_entry (path_name : string -> string) (mount : string) (u : usage)
  : disk_info :=
  let corrected_used := u_total u - u_free u in
  let corrected_percent :=
    if u_total u >? 0 then Qmake (100 * corrected_used) (Z.to_pos (u_total u)) else 0%Q in
  DiskInfo mount (get_volume_name path_name mount) (u_total u)
           corrected_used (u_free u) corrected_percent.

(** [disk_usage m] is [None] when [psutil.disk_usage] raises. *)
Fixpoint get_physical_disks_info (path_name : string -> string)
    (disk_usage : string -> option usage) (partitions : list partition)
  : list disk_info :=
  match partitions with
  | [] => []
  | part :: rest =>
      let disks := get_physical_disks_info path_name disk_usage rest in
      let mount := p_mountpoint part in
      if is_system_volume mount then disks
      else if existsb (String.eqb (p_fstype part)) pseudo_fstypes
              || contains "loop" (p_device part) then disks
      else
        match disk_usage mount with
        | None => disks
        | Some u =>
            if u_total u <? 100 * 1024 ^ 2 then disks
            else disk_entry path_name mount u :: disks
        end
  end.

(** ** Notions used in the statements *)

(** A usable record for [d] at time [now]: the file holds a JSON object
    with the three fields, a numeric timestamp no older than the folder
    TTL, the current signature, and a size that is not [null]. *)
Definition valid_record (now : Z) (d : dir) (size : json) : Prop :=
  exists data timestamp ts,
    d_cache d = Payload (JObj data) /\
    assoc "timestamp" data = Some timestamp /\
    assoc "size" data = Some size /\
    assoc "signature" data = Some (JStr (dir_signature d)) /\
    as_number timestamp = Some ts /\
    now - ts <= FOLDER_CACHE_VALIDITY_SECONDS /\
    size <> JNull.

(** The test of the round on a node: the children sum to strictly more
    than the node's size. *)
Definition needs_fix2 (level2 : level2_item) : bool :=
  sum_level3_sizes (level_3 level2) >? l2_size level2.

Definition needs_fix1 (level1 : level1_item) : bool :=
  sum_level2_sizes (level_2 level1) >? l1_size level1.

(** How the round leaves a level-2 node and a level-1 node.  The sums
    are over the children as they were read from the file. *)
Definition corrected2 (old new : level2_item) : Prop :=
  l2_path new = l2_path old /\
  level_3 new = level_3 old /\
  l2_size new = (if needs_fix2 old then sum_level3_sizes (level_3 old) else l2_size old) /\
  l2_size old <= l2_size new.

Definition corrected1 (old new : level1_item) : Prop :=
  l1_path new = l1_path old /\
  Forall2 corrected2 (level_2 old) (level_2 new) /\
  l1_size new = (if needs_fix1 old then sum_level2_sizes (level_2 old) else l1_size old) /\
  l1_size old <= l1_size new.

(** The record writes a node calls for. *)
Definition due2 (level2 : level2_item) : list effect :=
  if needs_fix2 level2
  then [WriteFolderSize (l2_path level2) (sum_level3_sizes (level_3 level2))]
  else [].

Definition due1 (level1 : level1_item) : list effect :=
  (if needs_fix1 level1
   then [WriteFolderSize (l1_path level1) (sum_level2_sizes (level_2 level1))]
   else []) ++ flat_map due2 (level_2 level1).

(** Order of a list sorted on the size, largest first. *)
Definition by_size_desc (x y : string * Z) : Prop := snd y <= snd x.

(** The [min (top_n, number of siblings)] first entries of the siblings
    sorted by size, largest first. *)
Definition top_n_of (top_n : Z) (siblings : list (string * Z)) : list (string * Z) :=
  firstn (Z.to_nat top_n) (sort_desc siblings).


Definition entry1 (level1 : level1_item) : string * Z := (l1_path level1, l1_size level1).
Definition entry2 (level2 : level2_item) : string * Z := (l2_path level2, l2_size level2).
Definition entry3 (level3 : level3_item) : string * Z := (l3_path level3, l3_size level3).

(** The subdirectories of [parent] in discovery order, none when the
    listing fails. *)
Definition siblings_of (F : facilities) (parent : string) : list string :=
  match scandir_dirs F parent with
  | Some subdirs => subdirs
  | None => []
  end.

(** The siblings with the size of each, measured one by one. *)
Definition individual (F : facilities) (parent : string) : list (string * Z) :=
  map (fun subdir => (subdir, size_with_cache F subdir)) (siblings_of F parent).

(** The siblings with their sizes as the bulk tool reports them, or
    measured one by one when it reports nothing. *)
Definition preferred (F : facilities) (parent : string) : list (string * Z) :=
  match fast_get_dir_sizes F (siblings_of F parent) with
  | [] => individual F parent
  | sizes => sizes
  end.

(** Which of the two a build uses throughout: decided at the mount. *)
Definition measured (F : facilities) (disk_mount : string) : string -> list (string * Z) :=
  match fast_get_dir_sizes F (siblings_of F disk_mount) with
  | [] => individual F
  | _ => preferred F
  end.

(** Eight subdirectories of distinct sizes, built with [top_n = 5]. *)
Definition eight_sizes (p : string) : Z :=
  if String.eqb p "/a" then 30 else if String.eqb p "/b" then 80
  else if String.eqb p "/c" then 10 else if String.eqb p "/d" then 50
  else if String.eqb p "/e" then 70 else if String.eqb p "/f" then 20
  else if String.eqb p "/g" then 60 else 40.

Definition eight_dirs : facilities :=
  Facilities
    (fun p => if String.eqb p "/"
              then Some ["/a"; "/b"; "/c"; "/d"; "/e"; "/f"; "/g"; "/h"]
              else Some [])
    (fun dirs => Some (map (fun p => Some (p, eight_sizes p)) dirs))
    eight_sizes
    (fun _ => Some (50 # 1)).

(** Every live rebuild thread is the one recorded for its mount, and
    thread identities below [next_thread] only. *)
Definition sched_inv (s : sched) : Prop :=
  (forall t m, running s !! t = Some m ->
               exists start_time, active_threads s !! m = Some (t, start_time)) /\
  (forall t m, running s !! t = Some m -> (t < next_thread s)%nat).


(** ** load_cache and what the scheduling loop reads from it *)

(** [load_cache] on the snapshot files that parse; a file on which [open]
    or [json.load] raises gives [(None, None)] like a missing one.
    [not timestamp] holds for 0, [not hierarchical_data] for the empty
    list. *)
Definition load_cache (store : gmap string snapshot) (disk_mount : string)
  : option (list level1_item) * option Z :=
  match store !! cache_file_of disk_mount with
  | None => (None, None)
  | Some data =>
      if (s_timestamp data =? 0)
         || match level_1 data with [] => true | _ => false end
      then (None, None)
      else (Some (level_1 data), Some (s_timestamp data))
  end.

(** One iteration of [for disk in disks] in [main], as far as its
    inputs go: [ts] is the timestamp [load_cache] returns. *)
Definition observe (store : gmap string snapshot) (mount : string) (now start : Z)
  : observation :=
  Obs mount (snd (load_cache store mount)) now start.

(** Key [r]: the snapshot file of the mount is unlinked when it exists,
    then the rebuild is started unless one is in flight. *)
Definition refresh_key (store : gmap string snapshot) (s : sched)
    (mount : string) (now : Z) : gmap string snapshot * sched :=
  (delete (cache_file_of mount) store, manual_refresh s mount now).

(** ** The paginated view: keys and pages *)

(** [c.lower()] on an ASCII character. *)
Definition ascii_lower (c : ascii) : ascii :=
  let n := nat_of_ascii c in
  if ((65 <=? n) && (n <=? 90))%nat then ascii_of_nat (n + 32) else c.

Inductive key_result : Type :=
| Stay (current_page : Z) (current_levels : Z)   (* the inner loop goes on *)
| Leave.                                         (* [break] *)

(** The branches on [key = sys.stdin.read(1)].  [None] stands for a
    character outside ASCII or the empty string read at end of input,
    which match no branch.  A single character never equals the
    three-character arrow sequences listed beside [n] and [p]. *)
Definition handle_key (total_pages : Z) (current_page current_levels : Z)
    (key : option ascii) : key_result :=
  match key with
  | None => Stay current_page current_levels
  | Some key =>
      let key_lower := ascii_lower key in
      if (Ascii.eqb key_lower "q" || Ascii.eqb key_lower "027")%char
      then Leave
      else if Ascii.eqb key_lower "n"
      then Stay ((current_page + 1) mod total_pages) current_levels
      else if Ascii.eqb key_lower "p"
      then Stay ((current_page - 1) mod total_pages) current_levels
      else if Ascii.eqb key "+"
      then Stay current_page
                (if current_levels <? 3 then current_levels + 1 else current_levels)
      else if Ascii.eqb key "-"
      then Stay current_page
                (if current_levels >? 1 then current_levels - 1 else current_levels)
      else Stay current_page current_levels
  end.

(** The page shown first: the index of the first cache whose mount is
    [last_mount], page 0 when there is none or [last_mount] is falsy. *)
Fixpoint index_of_mount (mounts : list string) (last_mount : string) (i : Z) : option Z :=
  match mounts with
  | [] => None
  | m :: rest => if String.eqb m last_mount then Some i
                 else index_of_mount rest last_mount (i + 1)
  end.

Definition initial_page (mounts : list string) (last_mount : option string) : Z :=
  match last_mount with
  | None => 0
  | Some EmptyString => 0
  | Some m =>
      match index_of_mount mounts m 0 with
      | Some i => i
      | None => 0
      end
  end.

(** ** Colours and sizes for the display *)

Definition GREEN_NEON : string := String "027" "[38;5;46m".
Definition YELLOW_NEON : string := String "027" "[38;5;226m".
Definition ORANGE_NEON : string := String "027" "[38;5;208m".
Definition RED_NEON : string := String "027" "[38;5;196m".

(** The percentage is a float; it is only compared, so any rational
    stands for it. *)
Definition get_color_by_usage (percent : Q) : string :=
  if negb (Qle_bool 50 percent) then GREEN_NEON
  else if negb (Qle_bool 80 percent) then YELLOW_NEON
  else if negb (Qle_bool 90 percent) then ORANGE_NEON
  else RED_NEON.

(** Nearest integer, ties to the even one. *)
Definition round_half_even (q : Q) : Z :=
  let n := Qnum q in
  let d := Zpos (Qden q) in
  let fl := n / d in
  match 2 * (n mod d) ?= d with
  | Lt => fl
  | Gt => fl + 1
  | Eq => if Z.even fl then fl else fl + 1
  end.

(** [s.rjust(width)] *)
Definition rjust (width : nat) (s : string) : string :=
  (string_of_list_ascii (repeat " "%char (width - String.length s)) ++ s)%string.

(** [f"{x:5.1f}"]: one decimal, correctly rounded, at least five wide. *)
Definition format_5_1f (x : Q) : string :=
  let n := round_half_even (Qabs x * 10) in
  let body := (py_str (n / 10) ++ "." ++ py_str (n mod 10))%string in
  rjust 5 (if Qnum x <? 0 then ("-" ++ body)%string else body).

Fixpoint human_size_loop (units : list string) (size_bytes : Q) : string :=
  match units with
  | [] => (format_5_1f size_bytes ++ "EiB")%string
  | unit :: rest =>
      if negb (Qle_bool 1024 size_bytes)
      then (format_5_1f size_bytes ++ unit)%string
      else human_size_loop rest (size_bytes / 1024)
  end.

Definition size_units : list string := ["B"; "KiB"; "MiB"; "GiB"; "TiB"; "PiB"].

(** [human_size] of an integer.  The divisions by 1024.0 are exact in
    binary floating point and so is the conversion of an integer of
    magnitude below 2^53: on that range the value printed is the one
    computed here. *)
Definition human_size (size_bytes : Z) : string :=
  human_size_loop size_units (inject_Z size_bytes).

(** ** display_hierarchical_data *)

(** A printed line without its colours, padding and box glyphs: the
    path whose last component is printed, whether the size carries the
    ['+'] mark, the size printed and its text; for levels 2 and 3 whether
    the glyph of a last sibling is used, for level 3 also whether the
    parent was the last one. *)
Inductive line : Type :=
| NoData
| Line1 (path : string) (corrected : bool) (size : Z) (text : string)
| Line2 (path : string) (corrected : bool) (size : Z) (text : string) (is_last : bool)
| Line3 (path : string) (size : Z) (text : string) (is_last_parent is_last : bool)
| Separator.

Definition is_nil {A : Type} (l : list A) : bool :=
  match l with [] => true | _ => false end.

Fixpoint lines_level3 (level3_data : list level3_item) (is_last_parent : bool)
  : list line :=
  match level3_data with
  | [] => []
  | level3 :: rest =>
      Line3 (l3_path level3) (l3_size level3) (human_size (l3_size level3))
            is_last_parent (is_nil rest)
      :: lines_level3 rest is_last_parent
  end.

Fixpoint lines_level2 (level2_data : list level2_item) (max_levels : Z) : list line :=
  match level2_data with
  | [] => []
  | level2 :: rest =>
      let sum_level3 := sum_level3_sizes (level_3 level2) in
      let corrected2 := sum_level3 >? l2_size level2 in
      let size2 := if corrected2 then sum_level3 else l2_size level2 in
      let is_last_level2 := is_nil rest in
      Line2 (l2_path level2) corrected2 size2 (human_size size2) is_last_level2
      :: (if max_levels <? 3 then []
          else lines_level3 (level_3 level2) is_last_level2)
      ++ lines_level2 rest max_levels
  end.

Fixpoint lines_level1 (hierarchical_data : list level1_item) (max_levels : Z)
  : list line :=
  match hierarchical_data with
  | [] => []
  | level1 :: rest =>
      let sum_level2 := sum_level2_sizes (level_2 level1) in
      let corrected1 := sum_level2 >? l1_size level1 in
      let size1 := if corrected1 then sum_level2 else l1_size level1 in
      Line1 (l1_path level1) corrected1 size1 (human_size size1)
      :: (if max_levels <? 2 then []
          else lines_level2 (level_2 level1) max_levels
               ++ (if is_nil rest then [] else [Separator]))
      ++ lines_level1 rest max_levels
  end.

Definition display_hierarchical_data (hierarchical_data : list level1_item)
    (max_levels : Z) : list line :=
  match hierarchical_data with
  | [] => [NoData]
  | _ => lines_level1 hierarchical_data max_levels
  end.

(** ** Further notions used in the statements *)

(** No node is smaller than the sum of its children. *)
Definition consistent (items : list level1_item) : Prop :=
  forall level1, In level1 items ->
    sum_level2_sizes (level_2 level1) <= l1_size level1 /\
    forall level2, In level2 (level_2 level1) ->
      sum_level3_sizes (level_3 level2) <= l2_size level2.

(** A line that carries no ['+'] mark. *)
Definition unmarked (ln : line) : bool :=
  match ln with
  | Line1 _ corrected _ _ => negb corrected
  | Line2 _ corrected _ _ _ => negb corrected
  | _ => true
  end.

(** The sizes printed for the level-1 and level-2 nodes, top to bottom. *)
Fixpoint shown_sizes (lines : list line) : list (string * Z) :=
  match lines with
  | [] => []
  | Line1 path _ size _ :: rest => (path, size) :: shown_sizes rest
  | Line2 path _ size _ _ :: rest => (path, size) :: shown_sizes rest
  | _ :: rest => shown_sizes rest
  end.

(** The sizes a snapshot holds for its level-1 and level-2 nodes, each
    level-1 node followed by its children. *)
Definition stored_sizes (items : list level1_item) : list (string * Z) :=
  flat_map (fun level1 => entry1 level1 :: map entry2 (level_2 level1)) items.


(** No directory of the tree has a record file. *)
Fixpoint no_records (d : dir) : bool :=
  match d with
  | Dir _ _ cache _ _ _ subdirs =>
      match cache with NoFile => true | _ => false end && forallb no_records subdirs
  end.

(** The usage of a partition that passes every test of
    [get_physical_disks_info]: no system volume, no pseudo file system,
    no loop device, usage readable, at least 100 MiB. *)
Definition eligible (disk_usage : string -> option usage) (part : partition)
  : option usage :=
  if is_system_volume (p_mountpoint part)
     || existsb (String.eqb (p_fstype part)) pseudo_fstypes
     || contains "loop" (p_device part)
  then None
  else match disk_usage (p_mountpoint part) with
       | Some u => if u_total u <? 100 * 1024 ^ 2 then None else Some u
       | None => None
       end.

(** The number of level-3 nodes of a snapshot. *)
Definition level3_count (items : list level1_item) : nat :=
  length (flat_map (fun level1 => flat_map level_3 (level_2 level1)) items).

(** Every entry of [active_threads] names a thread that was started, and
    started on that mount. *)
Definition markers_inv (s : sched) : Prop :=
  forall m t start_time,
    active_threads s !! m = Some (t, start_time) ->
    (t < next_thread s)%nat /\ forall m', running s !! t = Some m' -> m' = m.

(** Every entry of [active_threads] names a live thread of its mount. *)
Definition marked_alive (s : sched) : Prop :=
  forall m t start_time,
    active_threads s !! m = Some (t, start_time) -> running s !! t = Some m.

(** The characters [safe_name] replaces. *)
Definition is_separator (c : ascii) : bool :=
  (Ascii.eqb c "/" || Ascii.eqb c ":" || Ascii.eqb c "\")%char.

(** How alarming a colour of [get_color_by_usage] is. *)
Definition severity (color : string) : nat :=
  if String.eqb color GREEN_NEON then 0
  else if String.eqb color YELLOW_NEON then 1
  else if String.eqb color ORANGE_NEON then 2
  else 3.

(* ===================================================================== *)
(** * Part II: properties                                                 *)
(* ===================================================================== *)

(** ** Sanity of the digest against published MD5 test vectors *)

Example md5_empty : MD5.hexdigest "" = "d41d8cd98f00b204e9800998ecf8427e".
Proof. vm_compute. reflexivity. Qed.

Example md5_abc : MD5.hexdigest "abc" = "900150983cd24fb0d6963f7d28e17f72".
Proof. vm_compute. reflexivity. Qed.

Example md5_two_blocks :
  MD5.hexdigest "xxxxxxxxxxxxxxxxxxxxxxxxxxxxxxxxxxxxxxxxxxxxxxxxxxxxxxxxxxxxxxxxxxxxxx"
  = "7d56c0f83fd1e320d60ea2f13dfdeedd".
Proof. vm_compute. reflexivity. Qed.

Example py_str_ex : py_str 2049 = "2049" /\ py_str 0 = "0".
Proof. split; reflexivity. Qed.

(** ** The signature *)

Section Signature.





End Signature.




(** ** The record lookup *)

Section Lookup.

Variable clk : clock.

Lemma all_in_object (data : list (string * json)) :
  all_in ["timestamp"; "size"; "signature"] (JObj data) = Some true <->
  (exists a b c, assoc "timestamp" data = Some a /\ assoc "size" data = Some b
                 /\ assoc "signature" data = Some c).
Proof.
  simpl. split.
  - destruct (assoc "timestamp" data) as [a|]; [| discriminate].
    destruct (assoc "size" data) as [b|]; [| discriminate].
    destruct (assoc "signature" data) as [c|]; [| discriminate].
    intros _. now exists a, b, c.
  - intros (a & b & c & -> & -> & ->). reflexivity.
Qed.

Lemma differs_from_str_false (a : json) (b : string) :
  differs_from_str a b = false <-> a = JStr b.
Proof.
  destruct a; simpl; split; try discriminate.
  - intros H. apply negb_false_iff, String.eqb_eq in H. now subst.
  - intros [= ->]. now rewrite String.eqb_refl.
Qed.

Lemma py_return_some (v r : json) : py_return v = Some r <-> v = r /\ r <> JNull.
Proof.
  destruct v; simpl; split;
    try (intros [= <-]; split; [reflexivity | discriminate]);
    try (intros [<- _]; reflexivity);
    try discriminate.
  intros [<- H]. now destruct H.
Qed.

Lemma read_hit (k : nat) (d : dir) (size : json) :
  fst (read_cached_folder_size clk k d) = Some size <-> valid_record (clk k) d size.
Proof.
  unfold read_cached_folder_size, read_cached_body, valid_record. split.
  - destruct (d_cache d) as [| | |data]; try discriminate.
    destruct (all_in _ data) as [[|]|] eqn:Hall; try discriminate.
    destruct data as [| | | | |kv]; try (simpl; discriminate).
    apply all_in_object in Hall. destruct Hall as (a & b & c & Ha & Hb & Hc).
    simpl. rewrite Ha, Hb, Hc.
    destruct (as_number a) as [ts|] eqn:Hts; [| discriminate].
    destruct (clk k - ts >? FOLDER_CACHE_VALIDITY_SECONDS) eqn:Hage; [discriminate |].
    destruct (differs_from_str c (dir_signature d)) eqn:Hsig; [discriminate |].
    simpl. intros Hret. apply py_return_some in Hret. destruct Hret as [-> Hnn].
    apply differs_from_str_false in Hsig. subst c.
    exists kv, a, ts. repeat split; try assumption.
    rewrite Z.gtb_ltb in Hage. apply Z.ltb_ge in Hage. exact Hage.
  - intros (data & timestamp & ts & Hc & Ht & Hs & Hg & Hn & Hage & Hnn).
    rewrite Hc.
    assert (Hall : all_in ["timestamp"; "size"; "signature"] (JObj data) = Some true).
    { apply all_in_object.
      exists timestamp, size, (JStr (dir_signature d)). now repeat split. }
    rewrite Hall. simpl. rewrite Ht, Hn, Hs, Hg.
    assert (Hfresh : (clk k - ts >? FOLDER_CACHE_VALIDITY_SECONDS) = false).
    { rewrite Z.gtb_ltb. apply Z.ltb_ge. exact Hage. }
    rewrite Hfresh.
    assert (Hsig : differs_from_str (JStr (dir_signature d)) (dir_signature d) = false).
    { now apply differs_from_str_false. }
    rewrite Hsig. simpl. apply py_return_some. now split.
Qed.

Lemma read_miss (k : nat) (d : dir) :
  fst (read_cached_folder_size clk k d) = None <->
  (forall size, ~ valid_record (clk k) d size).
Proof.
  split.
  - intros Hnone size Hv. apply read_hit in Hv. congruence.
  - intros Hno. destruct (fst (read_cached_folder_size clk k d)) as [size|] eqn:E;
      [| reflexivity].
    apply read_hit in E. now destruct (Hno size).
Qed.

End Lookup.



(** ** The reconciler *)

Section Reconciler.

Lemma needs_fix2_lt (level2 : level2_item) :
  needs_fix2 level2 = true <-> l2_size level2 < sum_level3_sizes (level_3 level2).
Proof. unfold needs_fix2. rewrite Z.gtb_ltb. apply Z.ltb_lt. Qed.

Lemma needs_fix1_lt (level1 : level1_item) :
  needs_fix1 level1 = true <-> l1_size level1 < sum_level2_sizes (level_2 level1).
Proof. unfold needs_fix1. rewrite Z.gtb_ltb. apply Z.ltb_lt. Qed.

Lemma fix_level2_list_spec (items : list level2_item) (modified : bool) :
  Forall2 corrected2 items (fix_level2_list items modified).1.1 /\
  (fix_level2_list items modified).1.2 = modified || existsb needs_fix2 items /\
  (fix_level2_list items modified).2 = flat_map due2 items.
Proof.
  revert modified. induction items as [|level2 rest IH]; intros modified; simpl.
  - split; [constructor | split; [now rewrite orb_false_r | reflexivity]].
  - change (sum_level3_sizes (level_3 level2) >? l2_size level2)
      with (needs_fix2 level2).
    unfold due2 at 1.
    destruct (needs_fix2 level2) eqn:Hn.
    + destruct (IH true) as (Hitems & Hmod & Heffs).
      destruct (fix_level2_list rest true) as [[rest' modified'] effs]; simpl in *.
      split; [| split; [now rewrite Hmod, orb_true_r | now rewrite Heffs]].
      constructor; [| exact Hitems].
      unfold corrected2; simpl. rewrite Hn.
      apply needs_fix2_lt in Hn. repeat split. lia.
    + destruct (IH modified) as (Hitems & Hmod & Heffs).
      destruct (fix_level2_list rest modified) as [[rest' modified'] effs]; simpl in *.
      split; [| split; [exact Hmod | exact Heffs]].
      constructor; [| exact Hitems].
      unfold corrected2. rewrite Hn. repeat split. lia.
Qed.

Lemma fix_level1_list_spec (items : list level1_item) (modified : bool) :
  Forall2 corrected1 items (fix_level1_list items modified).1.1 /\
  (fix_level1_list items modified).1.2
  = modified || existsb (fun l1 => needs_fix1 l1 || existsb needs_fix2 (level_2 l1)) items /\
  (fix_level1_list items modified).2 = flat_map due1 items.
Proof.
  revert modified. induction items as [|level1 rest IH]; intros modified; simpl.
  - split; [constructor | split; [now rewrite orb_false_r | reflexivity]].
  - change (sum_level2_sizes (level_2 level1) >? l1_size level1)
      with (needs_fix1 level1).
    unfold due1 at 1.
    destruct (needs_fix1 level1) eqn:Hn.
    + destruct (fix_level2_list_spec (level_2 level1) true) as (H2 & M2 & E2).
      destruct (fix_level2_list (level_2 level1) true) as [[children modified2] effs2].
      simpl in H2, M2, E2. subst modified2.
      destruct (IH true) as (Hitems & Hmod & Heffs).
      destruct (fix_level1_list rest true) as [[rest' modified3] effs3]; simpl in *.
      split; [| split; [now rewrite Hmod, orb_true_r | now rewrite E2, Heffs]].
      constructor; [| exact Hitems].
      unfold corrected1; simpl. rewrite Hn.
      apply needs_fix1_lt in Hn. repeat split; [exact H2 | lia].
    + destruct (fix_level2_list_spec (level_2 level1) modified) as (H2 & M2 & E2).
      destruct (fix_level2_list (level_2 level1) modified) as [[children modified2] effs2].
      simpl in H2, M2, E2. subst modified2.
      destruct (IH (modified || existsb needs_fix2 (level_2 level1)))
        as (Hitems & Hmod & Heffs).
      destruct (fix_level1_list rest _) as [[rest' modified3] effs3]; simpl in *.
      split; [| split; [now rewrite Hmod, orb_assoc | now rewrite E2, Heffs]].
      constructor; [| exact Hitems].
      unfold corrected1; simpl. rewrite Hn.
      repeat split; [exact H2 | lia].
Qed.


Lemma corrected_nothing_due (items items' : list level1_item) :
  Forall2 corrected1 items items' ->
  existsb (fun l1 => needs_fix1 l1 || existsb needs_fix2 (level_2 l1)) items = false ->
  items' = items.
Proof.
  induction 1 as [|old new items items' Hc _ IH]; [reflexivity |].
  simpl. intros Hno. apply orb_false_iff in Hno. destruct Hno as [Hhd Htl].
  apply orb_false_iff in Hhd. destruct Hhd as [H1 H2].
  rewrite (IH Htl). f_equal.
  destruct Hc as (Hp & Hch & Hs & _). rewrite H1 in Hs.
  assert (Hsame : level_2 new = level_2 old).
  { clear - Hch H2. induction Hch as [|o n l l' Hc2 _ IH2]; [reflexivity |].
    simpl in H2. apply orb_false_iff in H2. destruct H2 as [Ho Hl].
    rewrite (IH2 Hl). f_equal.
    destruct Hc2 as (Hp2 & H3 & Hs2 & _). rewrite Ho in Hs2.
    destruct o, n; simpl in *; congruence. }
  destruct old, new; simpl in *; congruence.
Qed.



End Reconciler.


(** C10.  A round is not idempotent.  It compares a level-1 node with its
    level-2 children as they were before the same round corrects them;
    on the snapshot below the first round leaves the level-1 node smaller
    than the sum of its corrected children, and a second round changes the
    snapshot again and writes it back. *)
Theorem reconcile_round_not_idempotent :
  (forall data : snapshot,
      Forall2 (fun old new =>
                 l1_size new
                 = if l1_size old <? sum_level2_sizes (level_2 old)
                   then sum_level2_sizes (level_2 old) else l1_size old)
              (level_1 data) (level_1 (reconciled data))) /\
  (exists data : snapshot,
      let once := reconciled data in
      (exists level1,
          In level1 (level_1 once) /\
          l1_size level1 < sum_level2_sizes (level_2 level1)) /\
      reconciled once <> once /\
      reconciled (reconciled once) = reconciled once /\
      fix_cache_file "cache__.json" (Some once)
      = [WriteFolderSize "/a" 20; WriteSnapshot "cache__.json" (reconciled once)]).
Proof.
  split.
  - intros data. unfold reconciled, fix_snapshot.
    destruct (fix_level1_list_spec (level_1 data) false) as (Hitems & _ & _).
    destruct (fix_level1_list (level_1 data) false) as [[items' modified] effs].
    simpl in *. eapply Forall2_impl; [exact Hitems |].
    intros old new (_ & _ & Hs & _). rewrite Hs. unfold needs_fix1.
    now rewrite Z.gtb_ltb.
  - exists (Snapshot "/" 1700000000 (50 # 1) None
              [L1 "/a" 10 [L2 "/a/b" 5 [L3 "/a/b/c" 20]]]).
    cbv zeta. split; [| split; [| split]].
    + exists (L1 "/a" 10 [L2 "/a/b" 20 [L3 "/a/b/c" 20]]).
      split; [now left | reflexivity].
    + vm_compute. discriminate.
    + reflexivity.
    + reflexivity.
Qed.

(** ** The volume filter *)

Section Disks.

Variable path_name : string -> string.
Variable disk_usage : string -> option usage.

Lemma disks_from_partitions (partitions : list partition) (d : disk_info) :
  In d (get_physical_disks_info path_name disk_usage partitions) ->
  exists part u,
    In part partitions /\
    disk_usage (p_mountpoint part) = Some u /\
    d = disk_entry path_name (p_mountpoint part) u /\
    is_system_volume (p_mountpoint part) = false /\
    existsb (String.eqb (p_fstype part)) pseudo_fstypes = false /\
    contains "loop" (p_device part) = false /\
    (u_total u <? 100 * 1024 ^ 2) = false.
Proof.
  induction partitions as [|part rest IH]; [contradiction |].
  intros Hin. cbn [get_physical_disks_info] in Hin.
  assert (Hrest : In d (get_physical_disks_info path_name disk_usage rest) ->
                  exists part0 u,
                    In part0 (part :: rest) /\
                    disk_usage (p_mountpoint part0) = Some u /\
                    d = disk_entry path_name (p_mountpoint part0) u /\
                    is_system_volume (p_mountpoint part0) = false /\
                    existsb (String.eqb (p_fstype part0)) pseudo_fstypes = false /\
                    contains "loop" (p_device part0) = false /\
                    (u_total u <? 100 * 1024 ^ 2) = false).
  { intros H. destruct (IH H) as (p0 & u & Hp & Hrem).
    exists p0, u. split; [now right | exact Hrem]. }
  destruct (is_system_volume (p_mountpoint part)) eqn:Hsys; [now apply Hrest |].
  destruct (existsb (String.eqb (p_fstype part)) pseudo_fstypes
            || contains "loop" (p_device part)) eqn:Hfs; [now apply Hrest |].
  apply orb_false_iff in Hfs. destruct Hfs as [Hfs Hloop].
  destruct (disk_usage (p_mountpoint part)) as [u|] eqn:Hu; [| now apply Hrest].
  destruct (u_total u <? 100 * 1024 ^ 2) eqn:Hsmall; [now apply Hrest |].
  destruct Hin as [<- | Hin]; [| now apply Hrest].
  exists part, u. split; [now left |].
  split; [exact Hu |]. split; [reflexivity |].
  split; [exact Hsys |]. split; [exact Hfs |]. split; [exact Hloop | exact Hsmall].
Qed.

End Disks.

(** C9.  Every volume returned comes from a partition whose mount point
    is no system volume, whose file-system type is none of devfs, autofs,
    tmpfs, devtmpfs and whose device does not contain "loop"; its total is
    at least 100 MiB; and whatever used figure the facility reported, the
    entry carries used = total - free and percent = 100 * used / total.
    The percent of an entry is 0 when the total is 0. *)
Theorem get_physical_disks_info_spec :
  forall (path_name : string -> string) (disk_usage : string -> option usage)
         (partitions : list partition) (d : disk_info),
    In d (get_physical_disks_info path_name disk_usage partitions) ->
    (exists part u,
        In part partitions /\
        mountpoint d = p_mountpoint part /\
        disk_usage (mountpoint d) = Some u /\
        total d = u_total u /\ free d = u_free u /\
        ~ In (p_fstype part) pseudo_fstypes /\
        is_system_volume (mountpoint d) = false /\
        contains "loop" (p_device part) = false) /\
    100 * 1024 * 1024 <= total d /\
    used d = total d - free d /\
    (percent d == inject_Z (100 * used d) / inject_Z (total d))%Q /\
    (forall m u, u_total u = 0 -> percent (disk_entry path_name m u) = 0%Q).
Proof.
  intros path_name disk_usage partitions d Hin.
  apply disks_from_partitions in Hin.
  destruct Hin as (part & u & Hin & Hu & -> & Hsys & Hfs & Hloop & Hbig).
  apply Z.ltb_ge in Hbig. simpl.
  split; [| split; [| split; [| split]]].
  - exists part, u. repeat split; try assumption.
    intros Hmem.
    assert (Hyes : existsb (String.eqb (p_fstype part)) pseudo_fstypes = true).
    { apply existsb_exists. exists (p_fstype part).
      split; [exact Hmem | apply String.eqb_refl]. }
    congruence.
  - lia.
  - reflexivity.
  - assert (Hpos : (u_total u >? 0) = true) by (rewrite Z.gtb_ltb; apply Z.ltb_lt; lia).
    rewrite Hpos. rewrite Qmake_Qdiv. rewrite Z2Pos.id by lia. reflexivity.
  - intros m u0 H0. unfold disk_entry. simpl. now rewrite H0.
Qed.

Lemma get_physical_disks_info_spec_witness :
  let parts := [ Partition "/dev/disk1s1" "/" "apfs";
                 Partition "tmpfs" "/run" "tmpfs";
                 Partition "/dev/loop3" "/snap/core" "squashfs";
                 Partition "/dev/disk1s2" "/System/Volumes/Data" "apfs";
                 Partition "/dev/sdb1" "/mnt/small" "ext4" ] in
  let disk_usage := fun m : string =>
    if String.eqb m "/mnt/small" then Some (Usage 1000 10 990)
    else Some (Usage 500000000000 490000000000 100000000000) in
  let d := DiskInfo "/" "root" 500000000000 400000000000 100000000000
                    (40000000000000 # 500000000000) in
  get_physical_disks_info (fun s => s) disk_usage parts = [d] /\
  used d = total d - free d /\ 100 * 1024 * 1024 <= total d.
Proof.
  cbv zeta. split; [vm_compute; reflexivity |].
  pose proof (get_physical_disks_info_spec (fun s => s)
    (fun m : string =>
       if String.eqb m "/mnt/small" then Some (Usage 1000 10 990)
       else Some (Usage 500000000000 490000000000 100000000000))
    [ Partition "/dev/disk1s1" "/" "apfs";
      Partition "tmpfs" "/run" "tmpfs";
      Partition "/dev/loop3" "/snap/core" "squashfs";
      Partition "/dev/disk1s2" "/System/Volumes/Data" "apfs";
      Partition "/dev/sdb1" "/mnt/small" "ext4" ]
    (DiskInfo "/" "root" 500000000000 400000000000 100000000000
              (40000000000000 # 500000000000))
    ltac:(vm_compute; left; reflexivity)) as (_ & Hbig & Hused & _).
  split; [exact Hused | exact Hbig].
Defined.

(** ** The rebuild and the snapshot file *)

Section Rebuild.

Variable F : facilities.
Variable now : Z.
Variable disk_mount : string.
Variable top_n : Z.

Lemma update_cache_thread_cases :
  (exists data,
      build_hierarchical_data F now disk_mount top_n = Built data /\
      level_1 data <> [] /\
      update_cache_thread F now disk_mount top_n
      = [WriteSnapshot (cache_file_of disk_mount) data]) \/
  ((forall data,
       build_hierarchical_data F now disk_mount top_n = Built data ->
       level_1 data = []) /\
   update_cache_thread F now disk_mount top_n = []).
Proof.
  unfold update_cache_thread.
  destruct (build_hierarchical_data F now disk_mount top_n) as [| |data].
  - right. split; [discriminate | reflexivity].
  - right. split; [discriminate | reflexivity].
  - destruct (level_1 data) as [|item rest] eqn:Hl1.
    + right. split; [| reflexivity]. intros data' [= <-]. exact Hl1.
    + left. exists data. rewrite Hl1. now repeat split.
Qed.

End Rebuild.

(** C5.  A rebuild whose snapshot comes out with an empty level-1 list
    writes nothing: the snapshot files are as before, so the snapshot
    persisted earlier, if there is one, is still what a reader finds.  A
    file is written only for a snapshot with a non-empty level-1 list. *)
Theorem empty_build_not_persisted :
  forall (F : facilities) (now : Z) (disk_mount : string) (top_n : Z)
         (store : gmap string snapshot) (data : snapshot),
    build_hierarchical_data F now disk_mount top_n = Built data ->
    level_1 data = [] ->
    update_cache_thread F now disk_mount top_n = [] /\
    apply_effects store (update_cache_thread F now disk_mount top_n) = store /\
    apply_effects store (update_cache_thread F now disk_mount top_n)
      !! cache_file_of disk_mount
    = store !! cache_file_of disk_mount /\
    (forall F' now' mount' top_n' f d,
        In (WriteSnapshot f d) (update_cache_thread F' now' mount' top_n') ->
        level_1 d <> []).
Proof.
  intros F now disk_mount top_n store data Hbuilt Hempty.
  assert (Hnone : update_cache_thread F now disk_mount top_n = []).
  { destruct (update_cache_thread_cases F now disk_mount top_n)
      as [(data' & Hb & Hne & _) | [_ Hw]]; [| exact Hw].
    rewrite Hbuilt in Hb. injection Hb as <-. contradiction. }
  rewrite Hnone. repeat split.
  intros F' now' mount' top_n' f d Hin.
  destruct (update_cache_thread_cases F' now' mount' top_n')
    as [(data' & _ & Hne & Hw) | [_ Hw]]; rewrite Hw in Hin.
  - destruct Hin as [[= _ <-] | []]. exact Hne.
  - contradiction.
Qed.

(** A volume with one subdirectory, built with [top_n = 0]: the build
    succeeds with an empty level-1 list and the older snapshot stays. *)
Lemma empty_build_not_persisted_witness :
  let F := Facilities (fun p => if String.eqb p "/" then Some ["/a"] else Some [])
                      (fun dirs => Some (map (fun p => Some (p, 10)) dirs))
                      (fun _ => 10)
                      (fun _ => Some (50 # 1)) in
  let old := Snapshot "/" 5 (40 # 1) None [L1 "/a" 7 []] in
  let store : gmap string snapshot := {[ "cache__.json" := old ]} in
  build_hierarchical_data F 100 "/" 0 = Built (Snapshot "/" 100 (50 # 1) None []) /\
  apply_effects store (update_cache_thread F 100 "/" 0) !! cache_file_of "/" = Some old.
Proof.
  cbv zeta. split; [reflexivity |].
  rewrite (proj1 (proj2 (proj2
    (empty_build_not_persisted
       (Facilities (fun p => if String.eqb p "/" then Some ["/a"] else Some [])
                   (fun dirs => Some (map (fun p => Some (p, 10)) dirs))
                   (fun _ => 10)
                   (fun _ => Some (50 # 1)))
       100 "/" 0
       {[ "cache__.json" := Snapshot "/" 5 (40 # 1) None [L1 "/a" 7 []] ]}
       (Snapshot "/" 100 (50 # 1) None [])
       eq_refl eq_refl)))).
  reflexivity.
Defined.

(** ** Sorting and truncation *)

Section Sorting.

Lemma insert_desc_perm (x : string * Z) (l : list (string * Z)) :
  Permutation (insert_desc x l) (x :: l).
Proof.
  induction l as [|y l IH]; simpl; [apply Permutation_refl |].
  destruct (snd x <? snd y); [| apply Permutation_refl].
  eapply Permutation_trans; [apply perm_skip, IH | apply perm_swap].
Qed.

Lemma sort_desc_perm (l : list (string * Z)) : Permutation (sort_desc l) l.
Proof.
  induction l as [|x l IH]; simpl; [constructor |].
  eapply Permutation_trans; [apply insert_desc_perm | now apply perm_skip].
Qed.

Lemma insert_desc_sorted (x : string * Z) (l : list (string * Z)) :
  StronglySorted by_size_desc l -> StronglySorted by_size_desc (insert_desc x l).
Proof.
  induction 1 as [|y l Hl IH Hy]; simpl.
  - constructor; constructor.
  - destruct (snd x <? snd y) eqn:Hlt.
    + apply Z.ltb_lt in Hlt. constructor; [exact IH |].
      apply List.Forall_forall. intros z Hz.
      apply (Permutation_in _ (insert_desc_perm x l)) in Hz.
      destruct Hz as [<- | Hz]; [unfold by_size_desc; lia |].
      rewrite List.Forall_forall in Hy. now apply Hy.
    + apply Z.ltb_ge in Hlt. constructor; [now constructor |].
      constructor; [exact Hlt |].
      eapply List.Forall_impl; [| exact Hy].
      unfold by_size_desc. intros z Hz. simpl in Hz. lia.
Qed.

Lemma sort_desc_sorted (l : list (string * Z)) :
  StronglySorted by_size_desc (sort_desc l).
Proof.
  induction l as [|x l IH]; simpl; [constructor | now apply insert_desc_sorted].
Qed.



Lemma sort_desc_sorted_id (l : list (string * Z)) :
  StronglySorted by_size_desc l -> sort_desc l = l.
Proof.
  induction 1 as [|x l Hl IH Hx]; [reflexivity |].
  cbn [sort_desc]. rewrite IH. destruct l as [|y l]; [reflexivity |].
  cbn [insert_desc]. inversion Hx as [|? ? Hxy _]; subst.
  unfold by_size_desc in Hxy.
  destruct (snd x <? snd y) eqn:Hlt; [apply Z.ltb_lt in Hlt; lia | reflexivity].
Qed.

Lemma firstn_sorted (n : nat) (l : list (string * Z)) :
  StronglySorted by_size_desc l -> StronglySorted by_size_desc (firstn n l).
Proof.
  intros Hs. revert n. induction Hs as [|x l Hl IH Hx]; intros [|n]; simpl;
    try constructor.
  - apply IH.
  - apply List.Forall_forall. intros y Hy.
    rewrite List.Forall_forall in Hx. apply Hx.
    rewrite <- (firstn_skipn n l). apply in_or_app. now left.
Qed.

Lemma py_slice_to_nonneg {A : Type} (l : list A) (n : Z) :
  0 <= n -> py_slice_to l n = firstn (Z.to_nat n) l.
Proof. intros Hn. unfold py_slice_to. apply Z.leb_le in Hn. now rewrite Hn. Qed.

Lemma top_n_of_idem (top_n : Z) (l : list (string * Z)) :
  top_n_of top_n (top_n_of top_n l) = top_n_of top_n l.
Proof.
  unfold top_n_of.
  rewrite (sort_desc_sorted_id (firstn _ (sort_desc l)))
    by apply firstn_sorted, sort_desc_sorted.
  rewrite firstn_firstn. f_equal. lia.
Qed.



End Sorting.

(** ** The builder keeps the top of every sibling set *)

Section Builder.

Variable F : facilities.
Variable top_n : Z.
Hypothesis top_n_nonneg : 0 <= top_n.

Lemma top_n_of_nil : top_n_of top_n [] = [].
Proof. unfold top_n_of. simpl. apply firstn_nil. Qed.

Lemma get_top_subdirs_top (directory : string) :
  get_top_subdirs F directory top_n = top_n_of top_n (individual F directory).
Proof.
  unfold get_top_subdirs, individual, siblings_of.
  destruct (scandir_dirs F directory) as [[|subdir subdirs]|];
    try (cbn [map]; now rewrite top_n_of_nil).
  cbv zeta. now rewrite py_slice_to_nonneg.
Qed.

Lemma top_of_node_top (path : string) (top : list (string * Z)) :
  top_of_node F path top_n = Some top -> top = top_n_of top_n (preferred F path).
Proof.
  unfold top_of_node, preferred.
  assert (Hind : get_top_subdirs F path top_n = top_n_of top_n (individual F path))
    by apply get_top_subdirs_top.
  unfold individual in *. unfold siblings_of in *.
  destruct (scandir_dirs F path) as [[|subdir subdirs]|] eqn:Hscan; [| | discriminate].
  - intros [= <-]. simpl. now rewrite top_n_of_nil.
  - remember (fast_get_dir_sizes F (subdir :: subdirs)) as fast eqn:Hfast.
    intros [= <-]. rewrite py_slice_to_nonneg by exact top_n_nonneg.
    destruct fast as [|entry fast]; [| reflexivity].
    rewrite Hind. apply top_n_of_idem.
Qed.

Lemma entry3_of_pairs (l : list (string * Z)) :
  map entry3 (map (fun '(path3, size3) => L3 path3 size3) l) = l.
Proof. induction l as [|[p s] l IH]; simpl; [reflexivity | now rewrite IH]. Qed.

Lemma build_level_2_spec (entry : string * Z) (level2 : level2_item) :
  build_level_2 F top_n entry = Some level2 ->
  entry2 level2 = entry /\
  map entry3 (level_3 level2) = top_n_of top_n (preferred F (l2_path level2)).
Proof.
  unfold build_level_2. destruct entry as [path2 size2].
  destruct (top_of_node F path2 top_n) as [top|] eqn:Htop; [| discriminate].
  simpl. intros [= <-]. simpl. split; [reflexivity |].
  rewrite entry3_of_pairs. now apply top_of_node_top.
Qed.

Lemma mapM_level_2 (entries : list (string * Z)) (items : list level2_item) :
  mapM (build_level_2 F top_n) entries = Some items ->
  map entry2 items = entries /\
  forall level2, In level2 items ->
    map entry3 (level_3 level2) = top_n_of top_n (preferred F (l2_path level2)).
Proof.
  intros H. apply mapM_Some in H.
  induction H as [|entry level2 entries items Hb _ IH]; simpl.
  - split; [reflexivity | contradiction].
  - apply build_level_2_spec in Hb. destruct Hb as [He H3]. destruct IH as [IHe IH3].
    split; [now rewrite He, IHe |].
    intros l2 [<- | Hin]; [exact H3 | now apply IH3].
Qed.

Lemma build_level_1_spec (entry : string * Z) (level1 : level1_item) :
  build_level_1 F top_n entry = Some level1 ->
  entry1 level1 = entry /\
  map entry2 (level_2 level1) = top_n_of top_n (preferred F (l1_path level1)) /\
  forall level2, In level2 (level_2 level1) ->
    map entry3 (level_3 level2) = top_n_of top_n (preferred F (l2_path level2)).
Proof.
  unfold build_level_1. destruct entry as [path1 size1].
  destruct (top_of_node F path1 top_n) as [top|] eqn:Htop; [| discriminate].
  simpl. destruct (mapM (build_level_2 F top_n) top) as [items|] eqn:Hitems;
    [| discriminate].
  simpl. intros [= <-]. simpl. apply mapM_level_2 in Hitems.
  destruct Hitems as [He H3]. split; [reflexivity |]. split; [| exact H3].
  rewrite He. now apply top_of_node_top.
Qed.

Lemma mapM_level_1 (entries : list (string * Z)) (items : list level1_item) :
  mapM (build_level_1 F top_n) entries = Some items ->
  map entry1 items = entries /\
  forall level1, In level1 items ->
    map entry2 (level_2 level1) = top_n_of top_n (preferred F (l1_path level1)) /\
    forall level2, In level2 (level_2 level1) ->
      map entry3 (level_3 level2) = top_n_of top_n (preferred F (l2_path level2)).
Proof.
  intros H. apply mapM_Some in H.
  induction H as [|entry level1 entries items Hb _ IH]; simpl.
  - split; [reflexivity | contradiction].
  - apply build_level_1_spec in Hb. destruct Hb as [He H2]. destruct IH as [IHe IH2].
    split; [now rewrite He, IHe |].
    intros l1 [<- | Hin]; [exact H2 | now apply IH2].
Qed.

(** The fallback build, level by level. *)
Lemma get_hierarchical_sizes_spec (directory : string) :
  let level_1 := snd (get_hierarchical_sizes F directory 3 top_n) in
  map entry1 level_1 = top_n_of top_n (individual F directory) /\
  forall level1, In level1 level_1 ->
    map entry2 (level_2 level1) = top_n_of top_n (individual F (l1_path level1)) /\
    forall level2, In level2 (level_2 level1) ->
      map entry3 (level_3 level2) = top_n_of top_n (individual F (l2_path level2)).
Proof.
  unfold get_hierarchical_sizes. cbn [snd Z.geb Z.compare Pos.compare Pos.compare_cont].
  split.
  - rewrite map_map, <- get_top_subdirs_top.
    induction (get_top_subdirs F directory top_n) as [|[p s] l IH]; simpl;
      [reflexivity | now rewrite IH].
  - intros level1 Hin. apply in_map_iff in Hin.
    destruct Hin as ([path1 size1] & <- & _). simpl. split.
    + rewrite map_map, <- get_top_subdirs_top.
      induction (get_top_subdirs F path1 top_n) as [|[p s] l IH]; simpl;
        [reflexivity | now rewrite IH].
    + intros level2 Hin2. apply in_map_iff in Hin2.
      destruct Hin2 as ([path2 size2] & <- & _). simpl.
      rewrite entry3_of_pairs. apply get_top_subdirs_top.
Qed.

End Builder.



(** ** The scheduler *)

Section Scheduler.

Lemma sched_inv_init : sched_inv sched_init.
Proof. split; intros t m H; simpl in H; now rewrite lookup_empty in H. Qed.

Lemma running_fresh (s : sched) :
  sched_inv s -> running s !! next_thread s = None.
Proof.
  intros [_ Hlt]. destruct (running s !! next_thread s) as [m|] eqn:E; [| reflexivity].
  apply Hlt in E. lia.
Qed.

Lemma start_rebuild_inv (s : sched) (mount : string) (start_time : Z) :
  sched_inv s -> active_threads s !! mount = None ->
  sched_inv (start_rebuild s mount start_time).
Proof.
  intros Hinv Hfree. pose proof (running_fresh s Hinv) as Hfresh.
  destruct Hinv as [Hact Hlt]. unfold start_rebuild. split; simpl; intros t m Hrun.
  - apply lookup_insert_Some in Hrun. destruct Hrun as [[<- <-] | [Hne Hrun]].
    + exists start_time. apply lookup_insert_eq.
    + destruct (Hact _ _ Hrun) as [st Hst]. exists st.
      rewrite lookup_insert_ne; [exact Hst |]. intros <-. congruence.
  - apply lookup_insert_Some in Hrun. destruct Hrun as [[<- <-] | [Hne Hrun]]; [lia |].
    apply Hlt in Hrun. lia.
Qed.

Lemma start_rebuild_other (s : sched) (mount m : string) (start_time : Z) (t : nat) :
  sched_inv s -> mount <> m ->
  running (start_rebuild s mount start_time) !! t = Some m <-> running s !! t = Some m.
Proof.
  intros Hinv Hne. pose proof (running_fresh s Hinv) as Hfresh.
  unfold start_rebuild; simpl. rewrite lookup_insert_Some. split.
  - intros [[_ ?] | [_ H]]; [contradiction | exact H].
  - intros H. right. split; [| exact H]. intros <-. congruence.
Qed.

Lemma cleanup_inv (s : sched) : sched_inv s -> sched_inv (cleanup s).
Proof.
  intros [Hact Hlt]. split; simpl; intros t m Hrun; [| now apply (Hlt t m)].
  destruct (Hact _ _ Hrun) as [st Hst]. exists st.
  apply map_lookup_filter_Some. split; [exact Hst |].
  simpl. unfold is_alive. now rewrite Hrun.
Qed.

Lemma schedule_one_inv (s : sched) (o : observation) :
  sched_inv s -> sched_inv (schedule_one s o).
Proof.
  intros Hinv. unfold schedule_one.
  destruct (_ && _) eqn:Hc; [| exact Hinv].
  apply andb_true_iff in Hc. destruct Hc as [_ Hfree].
  apply negb_true_iff, bool_decide_eq_false in Hfree.
  apply start_rebuild_inv; [exact Hinv |].
  destruct (active_threads s !! o_mount o) eqn:E; [| reflexivity].
  destruct Hfree. now eexists.
Qed.

Lemma schedule_one_in_flight (s : sched) (o : observation) (m : string) (t0 : nat) :
  sched_inv s -> running s !! t0 = Some m ->
  forall t, running (schedule_one s o) !! t = Some m <-> running s !! t = Some m.
Proof.
  intros Hinv Hrun t. unfold schedule_one.
  destruct (_ && _) eqn:Hc; [| reflexivity].
  apply andb_true_iff in Hc. destruct Hc as [_ Hfree].
  apply negb_true_iff, bool_decide_eq_false in Hfree.
  apply start_rebuild_other; [exact Hinv |].
  intros Heq. apply Hfree. rewrite Heq. destruct Hinv as [Hact _].
  destruct (Hact _ _ Hrun) as [st Hst]. eexists. exact Hst.
Qed.

Lemma schedule_loop_in_flight (disks : list observation) (s : sched)
      (m : string) (t0 : nat) :
  sched_inv s -> running s !! t0 = Some m ->
  sched_inv (fold_left schedule_one disks s) /\
  forall t, running (fold_left schedule_one disks s) !! t = Some m
            <-> running s !! t = Some m.
Proof.
  revert s. induction disks as [|o disks IH]; intros s Hinv Hrun; simpl.
  - split; [exact Hinv | reflexivity].
  - pose proof (schedule_one_in_flight s o m t0 Hinv Hrun) as Hone.
    destruct (IH (schedule_one s o) (schedule_one_inv s o Hinv)
                 (proj2 (Hone t0) Hrun)) as [Hinv' Hsame].
    split; [exact Hinv' |]. intros t. now rewrite Hsame, Hone.
Qed.

Lemma schedule_loop_inv (disks : list observation) (s : sched) :
  sched_inv s -> sched_inv (fold_left schedule_one disks s).
Proof.
  revert s. induction disks as [|o disks IH]; intros s Hinv; simpl; [exact Hinv |].
  apply IH, schedule_one_inv, Hinv.
Qed.

Lemma manual_refresh_inv (s : sched) (mount : string) (now : Z) :
  sched_inv s -> sched_inv (manual_refresh s mount now).
Proof.
  intros Hinv. unfold manual_refresh. case_bool_decide as Hc; [exact Hinv |].
  apply start_rebuild_inv; [exact Hinv |].
  destruct (active_threads s !! mount) eqn:E; [| reflexivity].
  destruct Hc. now eexists.
Qed.

Lemma thread_finishes_inv (s : sched) (thread : nat) :
  sched_inv s -> sched_inv (thread_finishes s thread).
Proof.
  intros [Hact Hlt]. split; simpl; intros t m Hrun;
    apply lookup_delete_Some in Hrun; destruct Hrun as [_ Hrun];
    [now apply Hact | now apply (Hlt t m)].
Qed.

Lemma sched_step_inv (s : sched) (e : event) : sched_inv s -> sched_inv (sched_step s e).
Proof.
  intros Hinv. destruct e as [disks | mount now | thread]; simpl.
  - apply schedule_loop_inv, cleanup_inv, Hinv.
  - apply manual_refresh_inv, Hinv.
  - apply thread_finishes_inv, Hinv.
Qed.

Lemma sched_run_inv (es : list event) : sched_inv (sched_run es).
Proof.
  unfold sched_run. generalize sched_inv_init. generalize sched_init.
  induction es as [|e es IH]; intros s Hinv; simpl; [exact Hinv |].
  apply IH, sched_step_inv, Hinv.
Qed.

Lemma sched_inv_unique (s : sched) (m : string) (t1 t2 : nat) :
  sched_inv s -> running s !! t1 = Some m -> running s !! t2 = Some m -> t1 = t2.
Proof.
  intros [Hact _] H1 H2.
  destruct (Hact _ _ H1) as [st1 E1]. destruct (Hact _ _ H2) as [st2 E2].
  congruence.
Qed.

End Scheduler.

Section SchedulerStarts.

Lemma schedule_one_starts (s : sched) (o : observation) (t : nat) (m : string) :
  running (schedule_one s o) !! t = Some m ->
  running s !! t = Some m \/ active_threads s !! m = None.
Proof.
  unfold schedule_one. destruct (_ && _) eqn:Hc; [| now left].
  apply andb_true_iff in Hc. destruct Hc as [_ Hfree].
  apply negb_true_iff, bool_decide_eq_false in Hfree.
  unfold start_rebuild; simpl. rewrite lookup_insert_Some.
  intros [[_ <-] | [_ H]]; [right | now left].
  destruct (active_threads s !! o_mount o) eqn:E; [| reflexivity].
  destruct Hfree. now eexists.
Qed.

Lemma schedule_one_marks (s : sched) (o : observation) (m : string) :
  active_threads (schedule_one s o) !! m = None -> active_threads s !! m = None.
Proof.
  unfold schedule_one. destruct (_ && _); [| trivial].
  unfold start_rebuild; simpl. rewrite lookup_insert_None. now intros [H _].
Qed.

Lemma schedule_loop_starts (disks : list observation) (s : sched) (t : nat) (m : string) :
  running (fold_left schedule_one disks s) !! t = Some m ->
  running s !! t = Some m \/ active_threads s !! m = None.
Proof.
  revert s. induction disks as [|o disks IH]; intros s; simpl; [now left |].
  intros H. apply IH in H. destruct H as [H | H].
  - now apply schedule_one_starts in H.
  - right. now apply schedule_one_marks in H.
Qed.

End SchedulerStarts.

(** C3.  In every state the scheduler can reach, whatever the order of
    scheduling passes, manual refreshes and thread terminations: a mount
    has at most one live rebuild thread; a pass or a refresh starts a
    thread for a mount only when the mount is not in [active_threads];
    while a rebuild of a mount is alive neither starts another for it;
    and once the thread has returned, the cleanup of the next pass drops
    the mount from [active_threads] and that pass can start a rebuild
    again. *)
Theorem at_most_one_rebuild :
  forall (es : list event) (m : string),
    let s := sched_run es in
    (forall t1 t2,
        running s !! t1 = Some m -> running s !! t2 = Some m -> t1 = t2) /\
    (forall disks t,
        running (schedule_pass s disks) !! t = Some m ->
        running s !! t = Some m \/ active_threads (cleanup s) !! m = None) /\
    (forall now t,
        running (manual_refresh s m now) !! t = Some m ->
        running s !! t = Some m \/ active_threads s !! m = None) /\
    (forall t0,
        running s !! t0 = Some m ->
        (forall disks t,
            running (schedule_pass s disks) !! t = Some m <-> t = t0) /\
        (forall now, manual_refresh s m now = s)) /\
    (forall t0,
        running s !! t0 = Some m ->
        let s' := thread_finishes s t0 in
        (forall t, running s' !! t <> Some m) /\
        active_threads (cleanup s') !! m = None /\
        forall o,
          o_mount o = m ->
          is_cache_outdated (o_now o) (o_ts o) DISK_CACHE_VALIDITY_SECONDS = true ->
          running (schedule_pass s' [o]) !! next_thread s' = Some m).
Proof.
  intros es m s. pose proof (sched_run_inv es) as Hinv. fold s in Hinv.
  split; [| split; [| split; [| split]]].
  - intros t1 t2. now apply sched_inv_unique.
  - intros disks t H. unfold schedule_pass in H.
    apply schedule_loop_starts in H. exact H.
  - intros now t. unfold manual_refresh. case_bool_decide as Hc; [now left |].
    intros _. right. destruct (active_threads s !! m) eqn:E; [| reflexivity].
    destruct Hc. now eexists.
  - intros t0 Hrun. split.
    + intros disks t. unfold schedule_pass.
      destruct (schedule_loop_in_flight disks (cleanup s) m t0 (cleanup_inv s Hinv) Hrun)
        as [_ Hsame].
      rewrite Hsame. simpl. split.
      * intros H. now apply (sched_inv_unique s m t t0 Hinv).
      * now intros ->.
    + intros now. unfold manual_refresh. case_bool_decide as Hc; [reflexivity |].
      destruct Hc. destruct Hinv as [Hact _].
      destruct (Hact _ _ Hrun) as [st Hst]. eexists. exact Hst.
  - intros t0 Hrun s'.
    assert (Hgone : forall t, running s' !! t <> Some m).
    { intros t H. simpl in H. apply lookup_delete_Some in H. destruct H as [Hne H].
      apply Hne. now apply (sched_inv_unique s m t0 t Hinv). }
    assert (Hfree : active_threads (cleanup s') !! m = None).
    { simpl. apply map_lookup_filter_None. right. intros [t st] Hm.
      destruct Hinv as [Hact _]. destruct (Hact _ _ Hrun) as [st0 Hst0].
      rewrite Hst0 in Hm. injection Hm as <- <-.
      simpl. unfold is_alive. simpl. now rewrite lookup_delete_eq. }
    split; [exact Hgone |]. split; [exact Hfree |].
    intros o Ho Hold. unfold schedule_pass. simpl. unfold schedule_one.
    rewrite Ho, Hold, Hfree, orb_true_r.
    rewrite bool_decide_eq_false_2 by (intros [x Hx]; discriminate).
    simpl. apply lookup_insert_eq.
Qed.

Lemma at_most_one_rebuild_witness :
  let es := [Pass [Obs "/" None 100 100; Obs "/" None 101 101];
             Refresh "/" 102;
             Pass [Obs "/" (Some 1) 20000 20000]] in
  running (sched_run es) !! 0%nat = Some "/" /\
  (forall t, running (sched_run es) !! t = Some "/" -> t = 0%nat) /\
  active_threads (cleanup (thread_finishes (sched_run es) 0)) !! "/" = None.
Proof.
  cbv zeta.
  assert (H0 : running (sched_run
                 [Pass [Obs "/" None 100 100; Obs "/" None 101 101];
                  Refresh "/" 102;
                  Pass [Obs "/" (Some 1) 20000 20000]]) !! 0%nat = Some "/")
    by (vm_compute; reflexivity).
  split; [exact H0 |]. split.
  - intros t Ht.
    apply (proj1 (at_most_one_rebuild
                    [Pass [Obs "/" None 100 100; Obs "/" None 101 101];
                     Refresh "/" 102;
                     Pass [Obs "/" (Some 1) 20000 20000]] "/") t 0%nat Ht H0).
  - apply (proj2 (proj2 (proj2 (proj2 (at_most_one_rebuild
                    [Pass [Obs "/" None 100 100; Obs "/" None 101 101];
                     Refresh "/" 102;
                     Pass [Obs "/" (Some 1) 20000 20000]] "/")))) 0%nat H0).
Defined.

(** ** The calculator: records written and read back *)

Section Calculator.

Variable clk : clock.

Lemma with_cache_signature (d : dir) (c : cache_file) :
  dir_signature (with_cache d c) = dir_signature d.
Proof. reflexivity. Qed.

Lemma read_after_write (k k' : nat) (d : dir) (size : Z) :
  d_writable d = true ->
  clk k' - clk k <= FOLDER_CACHE_VALIDITY_SECONDS ->
  fst (read_cached_folder_size clk k' (write_cached_folder_size clk k d size).1.1)
  = Some (JNum size).
Proof.
  intros Hw Hfresh. apply read_hit. unfold write_cached_folder_size. rewrite Hw.
  cbn [fst]. unfold valid_record.
  exists [ ("timestamp", JNum (clk k)); ("size", JNum size);
           ("signature", JStr (dir_signature d)); ("version", JStr "1.0");
           ("generated_by", JStr "disk_usage_monitor_pro") ],
         (JNum (clk k)), (clk k).
  rewrite with_cache_signature.
  repeat split; try reflexivity; [exact Hfresh | discriminate].
Qed.

Lemma answered_from_record (k : nat) (d : dir) (v : json) :
  fst (read_cached_folder_size clk k d) = Some v ->
  calculate_folder_size_with_cache clk k d
  = Calc v d (snd (read_cached_folder_size clk k d)) false.
Proof.
  unfold calculate_folder_size_with_cache.
  destruct (read_cached_folder_size clk k d) as [r k0]. simpl. now intros ->.
Qed.

Lemma valid_record_later (now now' : Z) (d : dir) (v : json) :
  valid_record now d v ->
  (forall data timestamp ts,
      d_cache d = Payload (JObj data) ->
      assoc "timestamp" data = Some timestamp ->
      as_number timestamp = Some ts ->
      now' - ts <= FOLDER_CACHE_VALIDITY_SECONDS) ->
  valid_record now' d v.
Proof.
  intros (data & timestamp & ts & Hc & Ht & Hs & Hg & Hn & _ & Hnn) Hfresh.
  exists data, timestamp, ts. repeat split; try assumption.
  now apply (Hfresh data timestamp ts).
Qed.

(** The three ways a call can end. *)
Lemma calculate_cases (k : nat) (d : dir) :
  (exists v,
      fst (read_cached_folder_size clk k d) = Some v /\
      calculate_folder_size_with_cache clk k d
      = Calc v d (snd (read_cached_folder_size clk k d)) false) \/
  (exists total k1,
      0 < total /\
      calculate_folder_size_with_cache clk k d
      = Calc (JNum total) (write_cached_folder_size clk k1 d total).1.1 (S k1) true) \/
  (exists total k1,
      total <= 0 /\
      calculate_folder_size_with_cache clk k d = Calc (JNum total) d k1 true).
Proof.
  unfold calculate_folder_size_with_cache.
  destruct (read_cached_folder_size clk k d) as [[cached|] k0].
  - left. exists cached. now split.
  - right.
    assert (Hend : forall k1 total,
               (exists total' k1',
                   0 < total' /\
                   (if total >? 0
                    then let '(d', _, k2) := write_cached_folder_size clk k1 d total in
                         Calc (JNum total) d' k2 true
                    else Calc (JNum total) d k1 true)
                   = Calc (JNum total')
                          (write_cached_folder_size clk k1' d total').1.1 (S k1') true) \/
               (exists total' k1',
                   total' <= 0 /\
                   (if total >? 0
                    then let '(d', _, k2) := write_cached_folder_size clk k1 d total in
                         Calc (JNum total) d' k2 true
                    else Calc (JNum total) d k1 true)
                   = Calc (JNum total') d k1' true)).
    { intros k1 total. destruct (total >? 0) eqn:Hpos.
      - left. exists total, k1. rewrite Z.gtb_ltb in Hpos. apply Z.ltb_lt in Hpos.
        split; [exact Hpos |]. unfold write_cached_folder_size.
        now destruct (d_writable d).
      - right. exists total, k1. rewrite Z.gtb_ltb in Hpos. apply Z.ltb_ge in Hpos.
        now split. }
    destruct (walk clk (clk k0) d (Walking (S k0) 0)) as [k1 total | k1 total | k1].
    + apply Hend.
    + apply Hend.
    + right. exists 0, k1. now split.
Qed.

End Calculator.

(** An empty directory: the first call walks and returns 0, nothing is
    recorded, and the call that follows at once walks again. *)
Lemma second_call_walks_again :
  let clk : clock := fun k => 1700000000 + Z.of_nat k in
  let d := Dir "/srv/empty" (Some (Stat 1 2 16877 4096 1700000000))
               NoFile true true [] [] in
  let first := calculate_folder_size_with_cache clk 0 d in
  let second := calculate_folder_size_with_cache clk (ticks first) (tree first) in
  value first = JNum 0 /\ tree first = d /\
  value second = value first /\ walked second = true.
Proof. cbv zeta. repeat split. Qed.

(** C6 (amended).  Two successive calls on a directory that nothing else
    touches, the second made while the record left by the first is within
    the TTL: when the first call was answered from the record, or
    computed a positive total for a directory whose record file can be
    written, the second call returns the same value without walking and
    leaves the tree as it is. *)
Theorem second_call_answered_from_record :
  forall (clk : clock) (k : nat) (d : dir),
    let first := calculate_folder_size_with_cache clk k d in
    let second := calculate_folder_size_with_cache clk (ticks first) (tree first) in
    (forall data timestamp ts,
        d_cache (tree first) = Payload (JObj data) ->
        assoc "timestamp" data = Some timestamp ->
        as_number timestamp = Some ts ->
        clk (ticks first) - ts <= FOLDER_CACHE_VALIDITY_SECONDS) ->
    (walked first = false \/
     exists n, value first = JNum n /\ 0 < n /\ d_writable d = true) ->
    value second = value first /\ walked second = false /\ tree second = tree first.
Proof.
  intros clk k d first second Hfresh Hcase. subst second first.
  destruct (calculate_cases clk k d)
    as [(v & Hv & Heq) | [(total & k1 & Hpos & Heq) | (total & k1 & Hneg & Heq)]];
    rewrite Heq in *; cbn [value tree ticks walked] in *.
  - (* answered from the record *)
    assert (Hhit : fst (read_cached_folder_size clk
                          (snd (read_cached_folder_size clk k d)) d) = Some v).
    { apply read_hit. apply (valid_record_later (clk k)); [| exact Hfresh].
      now apply read_hit. }
    rewrite (answered_from_record clk _ d v Hhit). now repeat split.
  - (* a positive total, recorded *)
    destruct Hcase as [Hcase | (n & _ & _ & Hw)]; [discriminate Hcase |].
    assert (Hhit : fst (read_cached_folder_size clk (S k1)
                          (write_cached_folder_size clk k1 d total).1.1)
                   = Some (JNum total)).
    { apply read_after_write; [exact Hw |].
      unfold write_cached_folder_size in Hfresh. rewrite Hw in Hfresh.
      apply (Hfresh _ (JNum (clk k1)) (clk k1) eq_refl); reflexivity. }
    rewrite (answered_from_record clk _ _ _ Hhit). now repeat split.
  - (* nothing recorded *)
    destruct Hcase as [Hcase | (n & Hn & Hgt & _)]; [discriminate Hcase |].
    injection Hn as <-. lia.
Qed.

Lemma second_call_answered_from_record_witness :
  let clk : clock := fun k => 1700000000 + Z.of_nat k in
  let st := Some (Stat 1 2 16877 4096 1700000000) in
  let d := Dir "/srv" st NoFile true true [Some 5; None; Some 7]
               [Dir "/srv/a" st NoFile true true [Some 100] []] in
  let first := calculate_folder_size_with_cache clk 0 d in
  let second := calculate_folder_size_with_cache clk (ticks first) (tree first) in
  value first = JNum 112 /\ walked first = true /\
  value second = JNum 112 /\ walked second = false.
Proof.
  cbv zeta. split; [reflexivity |]. split; [reflexivity |].
  pose proof (second_call_answered_from_record
                (fun k => 1700000000 + Z.of_nat k) 0
                (Dir "/srv" (Some (Stat 1 2 16877 4096 1700000000)) NoFile true true
                     [Some 5; None; Some 7]
                     [Dir "/srv/a" (Some (Stat 1 2 16877 4096 1700000000))
                          NoFile true true [Some 100] []])) as H.
  cbv zeta in H.
  assert (Hfresh : forall data timestamp ts,
             d_cache (tree (calculate_folder_size_with_cache
                              (fun k => 1700000000 + Z.of_nat k) 0
                              (Dir "/srv" (Some (Stat 1 2 16877 4096 1700000000))
                                   NoFile true true [Some 5; None; Some 7]
                                   [Dir "/srv/a" (Some (Stat 1 2 16877 4096 1700000000))
                                        NoFile true true [Some 100] []])))
             = Payload (JObj data) ->
             assoc "timestamp" data = Some timestamp ->
             as_number timestamp = Some ts ->
             1700000000 + Z.of_nat
               (ticks (calculate_folder_size_with_cache
                         (fun k => 1700000000 + Z.of_nat k) 0
                         (Dir "/srv" (Some (Stat 1 2 16877 4096 1700000000))
                              NoFile true true [Some 5; None; Some 7]
                              [Dir "/srv/a" (Some (Stat 1 2 16877 4096 1700000000))
                                   NoFile true true [Some 100] []]))) - ts
             <= FOLDER_CACHE_VALIDITY_SECONDS).
  { intros data timestamp ts Hc Ht Hn.
    vm_compute in Hc. injection Hc as <-.
    vm_compute in Ht. injection Ht as <-.
    vm_compute in Hn. injection Hn as <-.
    vm_compute. discriminate. }
  destruct (H Hfresh) as (Hv & Hw & _).
  - right. exists 112. repeat split; reflexivity.
  - split; [| exact Hw]. rewrite Hv. reflexivity.
Defined.

(** ** The calculator: failures during the walk *)

Section WalkFailures.

Variable clk : clock.








End WalkFailures.



(* ===================================================================== *)
(** * Part III: further properties of the code                            *)
(* ===================================================================== *)

(** ** The reconciler settles in two rounds *)

Section ReconcilerRounds.

Lemma corrected2_settled (old new : level2_item) :
  corrected2 old new -> needs_fix2 new = false.
Proof.
  intros (_ & H3 & Hs & _). unfold needs_fix2 in *. rewrite H3, Hs.
  destruct (sum_level3_sizes (level_3 old) >? l2_size old) eqn:Hn; [| exact Hn].
  rewrite Z.gtb_ltb. apply Z.ltb_irrefl.
Qed.

Lemma corrected2_list_settled (items items' : list level2_item) :
  Forall2 corrected2 items items' -> existsb needs_fix2 items' = false.
Proof.
  induction 1 as [|old new items items' Hc _ IH]; [reflexivity |].
  simpl. now rewrite (corrected2_settled old new Hc), IH.
Qed.

Lemma corrected2_list_same (items items' : list level2_item) :
  Forall2 corrected2 items items' -> existsb needs_fix2 items = false -> items' = items.
Proof.
  induction 1 as [|old new items items' Hc _ IH]; [reflexivity |].
  simpl. intros Hno. apply orb_false_iff in Hno. destruct Hno as [Ho Hl].
  rewrite (IH Hl). f_equal.
  destruct Hc as (Hp & H3 & Hs & _). rewrite Ho in Hs.
  destruct old, new; simpl in *; congruence.
Qed.

(** After one round, no level-2 node is smaller than its children. *)
Lemma round_settles_level2 (items items' : list level1_item) :
  Forall2 corrected1 items items' ->
  List.Forall (fun level1 => existsb needs_fix2 (level_2 level1) = false) items'.
Proof.
  induction 1 as [|old new items items' Hc _ IH]; constructor; [| exact IH].
  destruct Hc as (_ & H2 & _). now apply (corrected2_list_settled (level_2 old)).
Qed.

(** A round on a snapshot whose level-2 nodes are settled settles the
    level-1 nodes as well. *)
Lemma round_settles_level1 (items items' : list level1_item) :
  List.Forall (fun level1 => existsb needs_fix2 (level_2 level1) = false) items ->
  Forall2 corrected1 items items' ->
  existsb (fun l1 => needs_fix1 l1 || existsb needs_fix2 (level_2 l1)) items' = false.
Proof.
  intros Hset Hc. revert Hset.
  induction Hc as [|old new items items' Hc _ IH]; intros Hset; [reflexivity |].
  inversion Hset as [|? ? Hold Hrest]; subst. simpl. rewrite (IH Hrest), orb_false_r.
  destruct Hc as (_ & H2 & Hs & _).
  pose proof (corrected2_list_same _ _ H2 Hold) as Hsame.
  rewrite Hsame, Hold, orb_false_r. unfold needs_fix1 in *. rewrite Hsame, Hs.
  destruct (sum_level2_sizes (level_2 old) >? l1_size old) eqn:Hn; [| exact Hn].
  rewrite Z.gtb_ltb. apply Z.ltb_irrefl.
Qed.

Lemma settled_twice (data : snapshot) :
  existsb (fun l1 => needs_fix1 l1 || existsb needs_fix2 (level_2 l1))
          (level_1 (reconciled (reconciled data))) = false.
Proof.
  unfold reconciled at 1. unfold fix_snapshot at 1.
  destruct (fix_level1_list_spec (level_1 (reconciled data)) false) as (H2 & _ & _).
  destruct (fix_level1_list (level_1 (reconciled data)) false) as [[items2 m2] e2].
  cbn [fst snd level_1] in *.
  apply (round_settles_level1 (level_1 (reconciled data))); [| exact H2].
  unfold reconciled, fix_snapshot.
  destruct (fix_level1_list_spec (level_1 data) false) as (H1 & _ & _).
  destruct (fix_level1_list (level_1 data) false) as [[items1 m1] e1].
  cbn [fst snd level_1] in *. now apply (round_settles_level2 (level_1 data)).
Qed.

Lemma settled_consistent (items : list level1_item) :
  existsb (fun l1 => needs_fix1 l1 || existsb needs_fix2 (level_2 l1)) items = false <->
  consistent items.
Proof.
  unfold consistent. split.
  - intros Hno level1 Hin.
    assert (H1 : needs_fix1 level1 || existsb needs_fix2 (level_2 level1) = false).
    { destruct (needs_fix1 level1 || existsb needs_fix2 (level_2 level1)) eqn:E;
        [| reflexivity].
      assert (Hyes : existsb (fun l1 => needs_fix1 l1 || existsb needs_fix2 (level_2 l1))
                             items = true)
        by (apply existsb_exists; now exists level1).
      congruence. }
    apply orb_false_iff in H1. destruct H1 as [Hn1 Hn2]. split.
    + unfold needs_fix1 in Hn1. rewrite Z.gtb_ltb in Hn1. now apply Z.ltb_ge in Hn1.
    + intros level2 Hin2.
      destruct (needs_fix2 level2) eqn:E.
      * assert (Hyes : existsb needs_fix2 (level_2 level1) = true)
          by (apply existsb_exists; now exists level2).
        congruence.
      * unfold needs_fix2 in E. rewrite Z.gtb_ltb in E. now apply Z.ltb_ge in E.
  - intros Hc.
    destruct (existsb _ items) eqn:E; [| reflexivity].
    apply existsb_exists in E. destruct E as (level1 & Hin & Hn).
    destruct (Hc level1 Hin) as [H1 H2].
    apply orb_true_iff in Hn. destruct Hn as [Hn | Hn].
    + apply needs_fix1_lt in Hn. lia.
    + apply existsb_exists in Hn. destruct Hn as (level2 & Hin2 & Hn).
      apply needs_fix2_lt in Hn. specialize (H2 level2 Hin2). lia.
Qed.

Lemma settled_round_idle (cache_path : string) (data : snapshot) :
  existsb (fun l1 => needs_fix1 l1 || existsb needs_fix2 (level_2 l1)) (level_1 data)
  = false ->
  reconciled data = data /\ fix_cache_file cache_path (Some data) = [].
Proof.
  intros Hno. unfold reconciled, fix_cache_file, fix_snapshot.
  destruct (fix_level1_list_spec (level_1 data) false) as (Hitems & Hmod & Heffs).
  destruct (fix_level1_list (level_1 data) false) as [[items' modified] effs].
  cbn [fst snd] in *. rewrite Hno in Hmod. simpl in Hmod. subst modified.
  rewrite (corrected_nothing_due _ _ Hitems Hno). split; [now destruct data |].
  rewrite app_nil_r, Heffs. clear - Hno.
  induction (level_1 data) as [|l1 items IH]; [reflexivity |].
  simpl in Hno. apply orb_false_iff in Hno. destruct Hno as [Hhd Htl].
  apply orb_false_iff in Hhd. destruct Hhd as [H1 H2].
  simpl. rewrite (IH Htl), app_nil_r. unfold due1. rewrite H1. simpl.
  clear - H2. induction (level_2 l1) as [|l2 l IH2]; [reflexivity |].
  simpl in H2. apply orb_false_iff in H2. destruct H2 as [Ha Hb].
  simpl. unfold due2 at 1. rewrite Ha. simpl. now apply IH2.
Qed.

End ReconcilerRounds.

(** X1.  Whatever the snapshot, after two rounds of the reconciler no
    node is smaller than the sum of its children, a further round leaves
    the snapshot as it is and writes nothing, neither a record nor the
    snapshot file. *)
Theorem reconciler_settles_in_two_rounds :
  forall (cache_path : string) (data : snapshot),
    let twice := reconciled (reconciled data) in
    consistent (level_1 twice) /\
    reconciled twice = twice /\
    fix_cache_file cache_path (Some twice) = [].
Proof.
  intros cache_path data twice. pose proof (settled_twice data) as Hset. fold twice in Hset.
  split; [now apply settled_consistent |].
  now apply settled_round_idle.
Qed.

(** X2.  A round on a snapshot in which no node is smaller than the sum
    of its children changes nothing and writes nothing. *)
Theorem reconciler_idle_on_consistent :
  forall (cache_path : string) (data : snapshot),
    consistent (level_1 data) ->
    reconciled data = data /\ fix_cache_file cache_path (Some data) = [].
Proof.
  intros cache_path data Hc. apply settled_round_idle. now apply settled_consistent.
Qed.

Lemma reconciler_idle_on_consistent_witness :
  let data := Snapshot "/" 1700000000 (50 # 1) None
                [L1 "/a" 30 [L2 "/a/b" 20 [L3 "/a/b/c" 20]; L2 "/a/d" 10 []]] in
  reconciled data = data /\ fix_cache_file "cache__.json" (Some data) = [].
Proof.
  cbv zeta. apply reconciler_idle_on_consistent.
  intros level1 [<- | []]. split; [simpl; lia |].
  intros level2 [<- | [<- | []]]; simpl; lia.
Defined.

(** ** The display and the reconciler *)

Section Display.

Lemma shown_sizes_app (a b : list line) :
  shown_sizes (a ++ b) = shown_sizes a ++ shown_sizes b.
Proof.
  induction a as [|ln a IH]; [reflexivity |].
  destruct ln; simpl; now rewrite IH.
Qed.

Lemma shown_sizes_level3 (items : list level3_item) (is_last_parent : bool) :
  shown_sizes (lines_level3 items is_last_parent) = [].
Proof. induction items as [|l3 items IH]; [reflexivity | exact IH]. Qed.

Lemma shown_sizes_level2 (items items' : list level2_item) (max_levels : Z) :
  Forall2 corrected2 items items' ->
  shown_sizes (lines_level2 items max_levels) = map entry2 items'.
Proof.
  induction 1 as [|old new items items' Hc _ IH]; [reflexivity |].
  cbn [lines_level2 shown_sizes map]. rewrite shown_sizes_app, IH.
  destruct (max_levels <? 3); [| rewrite shown_sizes_level3]; simpl;
    destruct Hc as (Hp & _ & Hs & _); unfold entry2, needs_fix2 in *;
    now rewrite Hp, Hs.
Qed.

Lemma shown_sizes_level1 (items items' : list level1_item) (max_levels : Z) :
  2 <= max_levels ->
  Forall2 corrected1 items items' ->
  shown_sizes (lines_level1 items max_levels) = stored_sizes items'.
Proof.
  intros Hml. assert (Hlt : (max_levels <? 2) = false) by (apply Z.ltb_ge; lia).
  induction 1 as [|old new items items' Hc _ IH]; [reflexivity |].
  cbn [lines_level1 shown_sizes]. rewrite Hlt.
  rewrite !shown_sizes_app, IH.
  destruct Hc as (Hp & H2 & Hs & _).
  rewrite (shown_sizes_level2 _ _ max_levels H2).
  unfold stored_sizes. cbn [flat_map]. unfold needs_fix1 in *. unfold entry1.
  rewrite Hp, Hs.
  destruct (is_nil items); cbn [shown_sizes]; rewrite app_nil_r; reflexivity.
Qed.

Lemma unmarked_level3 (items : list level3_item) (is_last_parent : bool) :
  forallb unmarked (lines_level3 items is_last_parent) = true.
Proof. induction items as [|l3 items IH]; [reflexivity | exact IH]. Qed.

Lemma unmarked_level2 (items : list level2_item) (max_levels : Z) :
  forallb unmarked (lines_level2 items max_levels) = negb (existsb needs_fix2 items).
Proof.
  induction items as [|l2 items IH]; [reflexivity |].
  cbn [lines_level2 forallb existsb unmarked]. rewrite forallb_app, IH.
  change (sum_level3_sizes (level_3 l2) >? l2_size l2) with (needs_fix2 l2).
  rewrite negb_orb.
  destruct (max_levels <? 3); [| rewrite unmarked_level3]; reflexivity.
Qed.

Lemma unmarked_level1 (items : list level1_item) (max_levels : Z) :
  forallb unmarked (lines_level1 items max_levels)
  = negb (existsb (fun l1 => needs_fix1 l1
                             || (if max_levels <? 2 then false
                                 else existsb needs_fix2 (level_2 l1))) items).
Proof.
  induction items as [|l1 items IH]; [reflexivity |].
  cbn [lines_level1 forallb existsb unmarked]. rewrite forallb_app, IH.
  change (sum_level2_sizes (level_2 l1) >? l1_size l1) with (needs_fix1 l1).
  rewrite !negb_orb.
  destruct (max_levels <? 2).
  - simpl. now rewrite andb_true_r.
  - rewrite forallb_app, unmarked_level2.
    destruct (is_nil items); simpl; now rewrite andb_true_r, andb_assoc.
Qed.

End Display.

(** X3.  With at least two levels shown, the sizes printed for the
    level-1 and level-2 nodes are, node by node, the sizes the reconciler
    stores for them in its next round. *)
Theorem display_shows_reconciled_sizes :
  forall (data : snapshot) (max_levels : Z),
    2 <= max_levels ->
    shown_sizes (display_hierarchical_data (level_1 data) max_levels)
    = stored_sizes (level_1 (reconciled data)).
Proof.
  intros data max_levels Hml. unfold reconciled, fix_snapshot.
  destruct (fix_level1_list_spec (level_1 data) false) as (Hitems & _ & _).
  destruct (fix_level1_list (level_1 data) false) as [[items' modified] effs].
  cbn [fst snd level_1] in *.
  unfold display_hierarchical_data.
  destruct (level_1 data) as [|l1 items] eqn:E.
  - inversion Hitems. reflexivity.
  - now apply shown_sizes_level1.
Qed.

Lemma display_shows_reconciled_sizes_witness :
  shown_sizes (display_hierarchical_data
                 [L1 "/a" 10 [L2 "/a/b" 5 [L3 "/a/b/c" 20]; L2 "/a/d" 1 []]] 3)
  = [("/a", 10); ("/a/b", 20); ("/a/d", 1)].
Proof.
  exact (display_shows_reconciled_sizes
           (Snapshot "/" 1700000000 (50 # 1) None
              [L1 "/a" 10 [L2 "/a/b" 5 [L3 "/a/b/c" 20]; L2 "/a/d" 1 []]])
           3 ltac:(lia)).
Defined.

(** X4.  With at least two levels shown, the display is free of ['+']
    marks exactly when no node of the snapshot is smaller than the sum of
    its children; in particular it is free of marks, at any number of
    levels, once the reconciler has run twice. *)
Theorem display_marks_inconsistency :
  forall (data : snapshot) (max_levels : Z),
    (2 <= max_levels ->
     (forallb unmarked (display_hierarchical_data (level_1 data) max_levels) = true
      <-> consistent (level_1 data))) /\
    forallb unmarked
      (display_hierarchical_data (level_1 (reconciled (reconciled data))) max_levels)
    = true.
Proof.
  intros data max_levels. split.
  - intros Hml. assert (Hlt : (max_levels <? 2) = false) by (apply Z.ltb_ge; lia).
    rewrite <- settled_consistent. unfold display_hierarchical_data.
    destruct (level_1 data) as [|l1 items] eqn:E; [now split |].
    rewrite unmarked_level1, Hlt. apply negb_true_iff.
  - pose proof (settled_twice data) as Hset. unfold display_hierarchical_data.
    destruct (level_1 (reconciled (reconciled data))) as [|l1 items]; [reflexivity |].
    rewrite unmarked_level1. apply negb_true_iff.
    destruct (max_levels <? 2); [| exact Hset].
    clear - Hset. induction (l1 :: items) as [|x l IH]; [reflexivity |].
    simpl in *. apply orb_false_iff in Hset. destruct Hset as [Hx Hl].
    apply orb_false_iff in Hx. destruct Hx as [Hx _].
    now rewrite Hx, orb_false_r, (IH Hl).
Qed.

Lemma display_marks_inconsistency_witness :
  forallb unmarked
    (display_hierarchical_data
       [L1 "/a" 30 [L2 "/a/b" 20 [L3 "/a/b/c" 20]; L2 "/a/d" 10 []]] 3) = true.
Proof.
  apply (proj2 (proj1 (display_marks_inconsistency
                  (Snapshot "/" 1700000000 (50 # 1) None
                     [L1 "/a" 30 [L2 "/a/b" 20 [L3 "/a/b/c" 20]; L2 "/a/d" 10 []]])
                  3) ltac:(lia))).
  intros level1 [<- | []]. split; [simpl; lia |].
  intros level2 [<- | [<- | []]]; simpl; lia.
Defined.

(** ** The per-directory record: written, read back, expired *)

Section RecordRoundTrip.

Variable clk : clock.

Lemma written_record_only (k : nat) (d : dir) (size : Z) (now : Z) (v : json) :
  d_writable d = true ->
  valid_record now (write_cached_folder_size clk k d size).1.1 v ->
  v = JNum size /\ now - clk k <= FOLDER_CACHE_VALIDITY_SECONDS.
Proof.
  intros Hw (data & timestamp & ts & Hc & Ht & Hs & _ & Hn & Hage & _).
  unfold write_cached_folder_size in Hc. rewrite Hw in Hc. cbn [fst with_cache d_cache] in Hc.
  unfold cache_record in Hc. injection Hc as <-.
  cbn in Ht, Hs. injection Ht as <-. injection Hs as <-.
  cbn in Hn. injection Hn as <-. now split.
Qed.

Lemma hit_earlier (k k' : nat) (d : dir) (v : json) :
  clk k <= clk k' ->
  fst (read_cached_folder_size clk k' d) = Some v ->
  fst (read_cached_folder_size clk k d) = Some v.
Proof.
  intros Hle Hhit. apply read_hit in Hhit. apply read_hit.
  destruct Hhit as (data & timestamp & ts & Hc & Ht & Hs & Hg & Hn & Hage & Hnn).
  exists data, timestamp, ts. repeat split; try assumption. lia.
Qed.

End RecordRoundTrip.

(** X5.  A record written by [write_cached_folder_size] is read back:
    while it is within the TTL the lookup returns the size written and
    the calculator returns it without walking; past the TTL the lookup
    misses.  When the record file cannot be written the function returns
    False and the directory is as before. *)
Theorem record_round_trip :
  forall (clk : clock) (k k' : nat) (d : dir) (size : Z),
    let written := write_cached_folder_size clk k d size in
    (d_writable d = true ->
     written.1.2 = true /\
     (clk k' - clk k <= FOLDER_CACHE_VALIDITY_SECONDS ->
      fst (read_cached_folder_size clk k' written.1.1) = Some (JNum size) /\
      value (calculate_folder_size_with_cache clk k' written.1.1) = JNum size /\
      walked (calculate_folder_size_with_cache clk k' written.1.1) = false) /\
     (FOLDER_CACHE_VALIDITY_SECONDS < clk k' - clk k ->
      fst (read_cached_folder_size clk k' written.1.1) = None)) /\
    (d_writable d = false -> written = (d, false, S k)).
Proof.
  intros clk k k' d size written. subst written. split.
  - intros Hw. split; [| split].
    + unfold write_cached_folder_size. now rewrite Hw.
    + intros Hfresh.
      pose proof (read_after_write clk k k' d size Hw Hfresh) as Hhit.
      split; [exact Hhit |].
      now rewrite (answered_from_record clk k' _ _ Hhit).
    + intros Hold. apply read_miss. intros v Hv.
      apply (written_record_only clk k d size _ v Hw) in Hv. lia.
  - intros Hw. unfold write_cached_folder_size. now rewrite Hw.
Qed.

Lemma record_round_trip_witness :
  let clk : clock := fun k => 1700000000 + 3600 * Z.of_nat k in
  let d := Dir "/data" (Some (Stat 1 2 16877 4096 1700000000)) NoFile true true [] [] in
  let d' := (write_cached_folder_size clk 0 d 4096).1.1 in
  fst (read_cached_folder_size clk 12 d') = Some (JNum 4096) /\
  fst (read_cached_folder_size clk 13 d') = None.
Proof.
  cbv zeta.
  destruct (proj1 (record_round_trip (fun k => 1700000000 + 3600 * Z.of_nat k) 0 12
                     (Dir "/data" (Some (Stat 1 2 16877 4096 1700000000))
                          NoFile true true [] []) 4096) eq_refl) as (_ & Hhit & _).
  destruct (proj1 (record_round_trip (fun k => 1700000000 + 3600 * Z.of_nat k) 0 13
                     (Dir "/data" (Some (Stat 1 2 16877 4096 1700000000))
                          NoFile true true [] []) 4096) eq_refl) as (_ & _ & Hmiss).
  split.
  - apply Hhit. vm_compute. discriminate.
  - apply Hmiss. vm_compute. reflexivity.
Defined.

(** X6.  Validity only runs out: a record that the lookup accepts at
    some reading of the clock is accepted, with the same size, at every
    earlier or equal reading; so a lookup that misses on a directory is
    not followed by a hit at a later reading unless the directory
    changes. *)
Theorem record_validity_runs_out :
  forall (clk : clock) (k k' : nat) (d : dir),
    clk k <= clk k' ->
    (forall v, fst (read_cached_folder_size clk k' d) = Some v ->
               fst (read_cached_folder_size clk k d) = Some v) /\
    (fst (read_cached_folder_size clk k d) = None ->
     fst (read_cached_folder_size clk k' d) = None).
Proof.
  intros clk k k' d Hle. split.
  - intros v. now apply hit_earlier.
  - intros Hmiss. destruct (fst (read_cached_folder_size clk k' d)) as [v|] eqn:E;
      [| reflexivity].
    apply (hit_earlier clk k k' d v Hle) in E. congruence.
Qed.

Lemma record_validity_runs_out_witness :
  let clk : clock := fun k => 1700000000 + 50000 * Z.of_nat k in
  let d := Dir "/data" (Some (Stat 1 2 16877 4096 1700000000))
               (Payload (JObj [("timestamp", JNum 1700000000); ("size", JNum 4096);
                               ("signature", JStr "00db29b4")]))
               true true [] [] in
  fst (read_cached_folder_size clk 1 d) = None /\
  fst (read_cached_folder_size clk 2 d) = None.
Proof.
  cbv zeta.
  assert (H1 : fst (read_cached_folder_size
                      (fun k => 1700000000 + 50000 * Z.of_nat k) 1
                      (Dir "/data" (Some (Stat 1 2 16877 4096 1700000000))
                           (Payload (JObj [("timestamp", JNum 1700000000);
                                           ("size", JNum 4096);
                                           ("signature", JStr "00db29b4")]))
                           true true [] [])) = None)
    by (vm_compute; reflexivity).
  split; [exact H1 |].
  apply (proj2 (record_validity_runs_out
                  (fun k => 1700000000 + 50000 * Z.of_nat k) 1 2 _
                  ltac:(vm_compute; discriminate)) H1).
Defined.

(** ** The walk: first run, cached subdirectories, timeout *)

Section WalkTotals.

Variable clk : clock.

Lemma add_files_shift (files : list (option Z)) (total : Z) :
  add_files total files = total + add_files 0 files.
Proof.
  revert total. induction files as [|[sz|] files IH]; intros total; simpl.
  - lia.
  - rewrite (IH (total + sz)), (IH (0 + sz)). lia.
  - apply IH.
Qed.

Lemma read_no_file (k : nat) (d : dir) :
  d_cache d = NoFile -> read_cached_folder_size clk k d = (None, k).
Proof.
  intros Hc. unfold read_cached_folder_size, read_cached_body. now rewrite Hc.
Qed.

Lemma no_records_root (d : dir) : no_records d = true -> d_cache d = NoFile.
Proof.
  destruct d as [p st c w l f subs]. simpl. intros H.
  apply andb_true_iff in H. destruct H as [H _]. now destruct c.
Qed.

Lemma no_records_subdirs (d : dir) :
  no_records d = true -> forallb no_records (d_subdirs d) = true.
Proof.
  destruct d as [p st c w l f subs]. simpl. intros H.
  apply andb_true_iff in H. now destruct H.
Qed.

Lemma scan_no_records (subs : list dir) (k : nat) (total : Z) :
  forallb no_records subs = true ->
  scan_subdirs clk k total subs = (k, Some (total, repeat true (length subs))).
Proof.
  induction subs as [|sub subs IH]; [reflexivity |].
  cbn [forallb]. intros H. apply andb_true_iff in H. destruct H as [Hsub Hsubs].
  cbn [scan_subdirs]. rewrite (read_no_file k sub (no_records_root sub Hsub)).
  now rewrite (IH Hsubs).
Qed.



Lemma scan_all_hits (subs : list dir) (sizes : list Z) :
  Forall2 (fun sub n => forall j, fst (read_cached_folder_size clk j sub) = Some (JNum n))
          subs sizes ->
  forall k total,
    exists k', scan_subdirs clk k total subs
               = (k', Some (total + fold_right Z.add 0 sizes,
                            repeat false (length subs))).
Proof.
  induction 1 as [|sub n subs sizes Hsub _ IH]; intros k total.
  - exists k. simpl. do 3 f_equal. lia.
  - cbn [scan_subdirs length repeat fold_right].
    specialize (Hsub k).
    destruct (read_cached_folder_size clk k sub) as [r k1]. simpl in Hsub. subst r.
    cbn [py_add as_number].
    destruct (IH k1 (total + n)) as [k2 ->].
    exists k2. do 3 f_equal. lia.
Qed.

Lemma walk_kept_none (f : dir -> walk_state -> walk_state) (subs : list dir)
      (st : walk_state) :
  walk_kept f subs (repeat false (length subs)) st = st.
Proof. revert st. induction subs as [|sub subs IH]; intros st; [reflexivity | apply IH]. Qed.

Lemma walk_state_value (st : walk_state) (k : nat) (d : dir) (k0 : nat) (total : Z) :
  read_cached_folder_size clk k d = (None, k0) ->
  walk clk (clk k0) d (Walking (S k0) 0) = st ->
  (exists k1, st = Walking k1 total \/ st = Stopped k1 total) ->
  value (calculate_folder_size_with_cache clk k d) = JNum total /\
  walked (calculate_folder_size_with_cache clk k d) = true /\
  (0 < total -> d_writable d = true ->
   exists ts, d_cache (tree (calculate_folder_size_with_cache clk k d))
              = Payload (cache_record ts total (dir_signature d))).
Proof.
  intros Hread Hwalk (k1 & Hst). unfold calculate_folder_size_with_cache.
  rewrite Hread, Hwalk.
  assert (Hend : forall (c : calc_result),
             c = (if total >? 0
                  then let '(d', _, k2) := write_cached_folder_size clk k1 d total in
                       Calc (JNum total) d' k2 true
                  else Calc (JNum total) d k1 true) ->
             value c = JNum total /\ walked c = true /\
             (0 < total -> d_writable d = true ->
              exists ts, d_cache (tree c)
                         = Payload (cache_record ts total (dir_signature d)))).
  { intros c ->. destruct (total >? 0) eqn:Hpos.
    - unfold write_cached_folder_size. destruct (d_writable d); cbn.
      + repeat split. intros _ _. now exists (clk k1).
      + repeat split. intros _ Hw. discriminate Hw.
    - cbn. repeat split. intros Hgt. rewrite Z.gtb_ltb in Hpos.
      apply Z.ltb_ge in Hpos. lia. }
  destruct Hst as [-> | ->]; now apply Hend.
Qed.

End WalkTotals.



(** X8.  A subdirectory with a valid record is counted by its record and
    not walked: when every immediate subdirectory has one, the result is
    the sum of the recorded sizes and of the sizes of the readable files
    of the directory itself, whatever the subdirectories contain and
    whatever time the walk takes. *)
Theorem cached_subdirs_not_walked :
  forall (clk : clock) (k : nat) (d : dir) (sizes : list Z),
    fst (read_cached_folder_size clk k d) = None ->
    d_listable d = true ->
    Forall2 (fun sub n => forall j, fst (read_cached_folder_size clk j sub) = Some (JNum n))
            (d_subdirs d) sizes ->
    value (calculate_folder_size_with_cache clk k d)
    = JNum (fold_right Z.add 0 sizes + add_files 0 (d_files d)).
Proof.
  intros clk k d sizes Hmiss Hlist Hsubs.
  destruct (read_cached_folder_size clk k d) as [r k0] eqn:Hread.
  simpl in Hmiss. subst r.
  destruct (scan_all_hits clk (d_subdirs d) sizes Hsubs (S k0) 0) as [k1 Hscan].
  assert (Hwalk : exists k2,
             walk clk (clk k0) d (Walking (S k0) 0)
             = Walking k2 (fold_right Z.add 0 sizes + add_files 0 (d_files d)) \/
             walk clk (clk k0) d (Walking (S k0) 0)
             = Stopped k2 (fold_right Z.add 0 sizes + add_files 0 (d_files d))).
  { destruct d as [path st cache writable listable files subdirs].
    cbn [d_listable d_subdirs d_files] in *. subst listable.
    cbn [walk d_listable d_subdirs d_files negb]. rewrite Hscan.
    rewrite (add_files_shift files (0 + fold_right Z.add 0 sizes)).
    exists (S k1). destruct (clk k1 - clk k0 >? 300).
    - right. f_equal.
    - left. rewrite walk_kept_none. f_equal. }
  destruct Hwalk as [k2 Hwalk].
  apply (walk_state_value clk _ k d k0 _ Hread eq_refl).
  exists k2. destruct Hwalk as [-> | ->]; [now left | now right].
Qed.

Lemma cached_subdirs_not_walked_witness :
  let clk : clock := fun k => 1700000000 + Z.of_nat (Nat.min k 1000) in
  let st := Some (Stat 1 2 16877 4096 1700000000) in
  let sub := Dir "/srv/b" st
                 (Payload (JObj [("timestamp", JNum 1699999000); ("size", JNum 40);
                                 ("signature", JStr "1cf1ed0a")]))
                 true true [Some 999]
                 [Dir "/srv/b/deep" st NoFile true true [Some 123456] []] in
  let d := Dir "/srv" st NoFile true true [Some 5; None; Some 7] [sub] in
  value (calculate_folder_size_with_cache clk 0 d) = JNum 52.
Proof.
  intros clk st sub d.
  assert (Hsub : Forall2 (fun s n => forall j,
                              fst (read_cached_folder_size clk j s) = Some (JNum n))
                         (d_subdirs d) [40]).
  { constructor; [| constructor].
    intros j. apply read_hit.
    exists [("timestamp", JNum 1699999000); ("size", JNum 40);
            ("signature", JStr "1cf1ed0a")], (JNum 1699999000), 1699999000.
    repeat split; try reflexivity; try discriminate.
    unfold FOLDER_CACHE_VALIDITY_SECONDS, FOLDER_CACHE_VALIDITY_HOURS, clk. lia. }
  exact (cached_subdirs_not_walked clk 0 d [40] eq_refl eq_refl Hsub).
Defined.

(** X9.  Timeout: on a tree without records, when more than five
    minutes have passed at the first check, the walk stops after the top
    directory and the calculator returns the sizes of the files of that
    directory alone; a positive partial total is recorded like a complete
    one, and while that record is valid a later call returns it without
    walking. *)
Theorem timed_out_walk_records_partial_total :
  forall (clk : clock) (k k' : nat) (d : dir),
    no_records d = true ->
    d_listable d = true ->
    300 < clk (S k) - clk k ->
    let first := calculate_folder_size_with_cache clk k d in
    let partial := add_files 0 (d_files d) in
    value first = JNum partial /\
    (0 < partial -> d_writable d = true ->
     clk k' - clk (S (S k)) <= FOLDER_CACHE_VALIDITY_SECONDS ->
     value (calculate_folder_size_with_cache clk k' (tree first)) = JNum partial /\
     walked (calculate_folder_size_with_cache clk k' (tree first)) = false).
Proof.
  intros clk k k' d Hno Hlist Hlate first partial. subst first partial.
  pose proof (read_no_file clk k d (no_records_root d Hno)) as Hread.
  pose proof (scan_no_records clk (d_subdirs d) (S k) 0 (no_records_subdirs d Hno)) as Hscan.
  assert (Hwalk : walk clk (clk k) d (Walking (S k) 0)
                  = Stopped (S (S k)) (add_files 0 (d_files d))).
  { destruct d as [path st cache writable listable files subdirs].
    cbn [d_listable d_subdirs d_files] in *. subst listable.
    cbn [walk d_listable d_subdirs d_files negb]. rewrite Hscan.
    assert (Hgt : (clk (S k) - clk k >? 300) = true)
      by (rewrite Z.gtb_ltb; apply Z.ltb_lt; exact Hlate).
    now rewrite Hgt. }
  assert (Hfirst : calculate_folder_size_with_cache clk k d
                   = if add_files 0 (d_files d) >? 0
                     then let '(d', _, k2) :=
                            write_cached_folder_size clk (S (S k)) d
                                                     (add_files 0 (d_files d)) in
                          Calc (JNum (add_files 0 (d_files d))) d' k2 true
                     else Calc (JNum (add_files 0 (d_files d))) d (S (S k)) true).
  { unfold calculate_folder_size_with_cache. now rewrite Hread, Hwalk. }
  rewrite Hfirst. clear Hfirst.
  destruct (add_files 0 (d_files d) >? 0) eqn:Hpos.
  - pose proof (read_after_write clk (S (S k)) k' d (add_files 0 (d_files d))) as Hrw.
    unfold write_cached_folder_size in *.
    destruct (d_writable d) eqn:Hw; cbn [value tree fst] in *; (split; [reflexivity |]).
    + intros _ _ Hfresh. specialize (Hrw eq_refl Hfresh).
      now rewrite (answered_from_record clk k' _ _ Hrw).
    + intros _ Hw'. discriminate Hw'.
  - cbn [value tree]. split; [reflexivity |].
    intros Hgt. rewrite Z.gtb_ltb in Hpos. apply Z.ltb_ge in Hpos. lia.
Qed.

Lemma timed_out_walk_records_partial_total_witness :
  let clk : clock := fun k => 1700000000 + 400 * Z.of_nat (Nat.min k 5) in
  let st := Some (Stat 1 2 16877 4096 1700000000) in
  let d := Dir "/srv" st NoFile true true [Some 5; Some 7]
               [Dir "/srv/a" st NoFile true true [Some 100000] []] in
  value (calculate_folder_size_with_cache clk 0 d) = JNum 12 /\
  value (calculate_folder_size_with_cache clk 9
           (tree (calculate_folder_size_with_cache clk 0 d))) = JNum 12.
Proof.
  intros clk st d.
  destruct (timed_out_walk_records_partial_total clk 0 9 d eq_refl eq_refl
              ltac:(vm_compute; reflexivity)) as [Hv Hnext].
  split; [exact Hv |].
  apply Hnext; [reflexivity | reflexivity | vm_compute; discriminate].
Defined.

(** ** The volume filter returns every eligible volume, in order *)

Section DisksComplete.

Variable path_name : string -> string.
Variable disk_usage : string -> option usage.

Lemma disks_cons (part : partition) (rest : list partition) :
  get_physical_disks_info path_name disk_usage (part :: rest)
  = match eligible disk_usage part with
    | Some u => disk_entry path_name (p_mountpoint part) u
                :: get_physical_disks_info path_name disk_usage rest
    | None => get_physical_disks_info path_name disk_usage rest
    end.
Proof.
  cbn [get_physical_disks_info]. unfold eligible.
  destruct (is_system_volume (p_mountpoint part)); [reflexivity |].
  cbn [orb].
  destruct (existsb (String.eqb (p_fstype part)) pseudo_fstypes
            || contains "loop" (p_device part)); [reflexivity |].
  destruct (disk_usage (p_mountpoint part)) as [u|]; [| reflexivity].
  now destruct (u_total u <? 100 * 1024 ^ 2).
Qed.

Lemma disks_complete (partitions : list partition) (part : partition) (u : usage) :
  In part partitions -> eligible disk_usage part = Some u ->
  In (disk_entry path_name (p_mountpoint part) u)
     (get_physical_disks_info path_name disk_usage partitions).
Proof.
  induction partitions as [|p0 rest IH]; [contradiction |].
  intros Hin Hel. rewrite disks_cons. destruct Hin as [-> | Hin].
  - rewrite Hel. now left.
  - destruct (eligible disk_usage p0); [right |]; now apply IH.
Qed.

Lemma disks_in_order (partitions : list partition) :
  sublist (map mountpoint (get_physical_disks_info path_name disk_usage partitions))
          (map p_mountpoint partitions).
Proof.
  induction partitions as [|p0 rest IH]; [constructor |].
  rewrite disks_cons. destruct (eligible disk_usage p0); cbn [map].
  - now apply sublist_skip.
  - now apply sublist_cons.
Qed.

End DisksComplete.

(** X10.  Every partition that passes the tests (no system volume, no
    pseudo file system, no loop device, usage readable, at least 100 MiB)
    is returned with its usage, and the volumes are returned in the order
    of the partitions. *)
Theorem get_physical_disks_info_complete :
  forall (path_name : string -> string) (disk_usage : string -> option usage)
         (partitions : list partition),
    (forall part u,
        In part partitions -> eligible disk_usage part = Some u ->
        In (disk_entry path_name (p_mountpoint part) u)
           (get_physical_disks_info path_name disk_usage partitions)) /\
    sublist (map mountpoint (get_physical_disks_info path_name disk_usage partitions))
            (map p_mountpoint partitions).
Proof.
  intros path_name disk_usage partitions. split.
  - intros part u. apply disks_complete.
  - apply disks_in_order.
Qed.

Lemma get_physical_disks_info_complete_witness :
  let parts := [ Partition "tmpfs" "/run" "tmpfs";
                 Partition "/dev/sda1" "/" "ext4";
                 Partition "/dev/sdb1" "/mnt/data" "ext4" ] in
  let disk_usage := fun _ : string => Some (Usage 500000000000 1 100000000000) in
  In (disk_entry (fun s => s) "/mnt/data" (Usage 500000000000 1 100000000000))
     (get_physical_disks_info (fun s => s) disk_usage parts).
Proof.
  intros parts disk_usage.
  apply (proj1 (get_physical_disks_info_complete (fun s => s) disk_usage parts)
           (Partition "/dev/sdb1" "/mnt/data" "ext4")).
  - right. right. now left.
  - reflexivity.
Defined.

(** ** The builder: shape of what it builds *)

Section BuiltShape.

Variable F : facilities.
Variable now : Z.
Variable mount : string.
Variable top_n : Z.
Hypothesis top_n_nonneg : 0 <= top_n.

Lemma built_levels (data : snapshot) :
  build_hierarchical_data F now mount top_n = Built data ->
  map entry1 (level_1 data) = top_n_of top_n (measured F mount mount) /\
  forall level1, In level1 (level_1 data) ->
    map entry2 (level_2 level1)
    = top_n_of top_n (measured F mount (l1_path level1)) /\
    forall level2, In level2 (level_2 level1) ->
      map entry3 (level_3 level2)
      = top_n_of top_n (measured F mount (l2_path level2)).
Proof.
  intros Hbuilt.
  unfold build_hierarchical_data in Hbuilt. unfold measured, siblings_of.
  destruct (scandir_dirs F mount) as [[|subdir subdirs]|] eqn:Hscan;
    try discriminate.
  remember (fast_get_dir_sizes F (subdir :: subdirs)) as fast eqn:Hfast.
  destruct fast as [|entry fast].
  - unfold slow_get_hierarchical_sizes in Hbuilt.
    pose proof (get_hierarchical_sizes_spec F top_n top_n_nonneg mount) as Hslow.
    destruct (get_hierarchical_sizes F mount 3 top_n) as [root items].
    simpl in Hbuilt, Hslow.
    destruct (disk_usage_percent F mount) as [percent|]; [| discriminate].
    injection Hbuilt as <-. exact Hslow.
  - destruct (mapM (build_level_1 F top_n)
                   (py_slice_to (sort_desc (entry :: fast)) top_n))
      as [items|] eqn:Hitems; simpl in Hbuilt; [| discriminate].
    destruct (disk_usage_percent F mount) as [percent|]; [| discriminate].
    injection Hbuilt as <-. simpl.
    apply (mapM_level_1 F top_n top_n_nonneg) in Hitems. destruct Hitems as [He H2].
    split; [| exact H2].
    rewrite He, py_slice_to_nonneg by exact top_n_nonneg.
    unfold top_n_of, preferred, siblings_of. now rewrite Hscan, <- Hfast.
Qed.

Lemma built_fields (data : snapshot) :
  build_hierarchical_data F now mount top_n = Built data ->
  disk_mount data = mount /\ s_timestamp data = now /\
  s_root data = match fast_get_dir_sizes F (siblings_of F mount) with
                | [] => Some (mount, size_with_cache F mount)
                | _ => None
                end.
Proof.
  unfold build_hierarchical_data, siblings_of.
  destruct (scandir_dirs F mount) as [[|subdir subdirs]|]; try discriminate.
  destruct (fast_get_dir_sizes F (subdir :: subdirs)) as [|entry fast].
  - unfold slow_get_hierarchical_sizes, get_hierarchical_sizes. cbn.
    destruct (disk_usage_percent F mount); [| discriminate].
    intros [= <-]. now repeat split.
  - destruct (mapM _ _) as [items|]; cbn; [| discriminate].
    destruct (disk_usage_percent F mount); [| discriminate].
    intros [= <-]. now repeat split.
Qed.

Lemma top_n_of_length (siblings : list (string * Z)) :
  (length (top_n_of top_n siblings) <= Z.to_nat top_n)%nat.
Proof. unfold top_n_of. rewrite length_firstn. apply Nat.le_min_l. Qed.

Lemma in_top_n_of (e : string * Z) (siblings : list (string * Z)) :
  In e (top_n_of top_n siblings) -> In e siblings.
Proof.
  unfold top_n_of. intros Hin.
  apply (Permutation_in _ (sort_desc_perm siblings)).
  rewrite <- (firstn_skipn (Z.to_nat top_n) (sort_desc siblings)).
  apply in_or_app. now left.
Qed.

Lemma in_individual (parent : string) (p : string) (s : Z) :
  In (p, s) (individual F parent) ->
  s = size_with_cache F p /\ In p (siblings_of F parent).
Proof.
  unfold individual. intros Hin. apply in_map_iff in Hin.
  destruct Hin as (q & [= <- <-] & Hq). now split.
Qed.

Lemma flat_map_length_le {A B : Type} (f : A -> list B) (l : list A) (m : nat) :
  (forall x, In x l -> (length (f x) <= m)%nat) ->
  (length (flat_map f l) <= length l * m)%nat.
Proof.
  induction l as [|x l IH]; intros H; [simpl; lia |].
  cbn [flat_map length]. rewrite length_app.
  specialize (H x (or_introl eq_refl)) as Hx.
  assert (Hl : (length (flat_map f l) <= length l * m)%nat)
    by (apply IH; intros y Hy; apply H; now right).
  lia.
Qed.

End BuiltShape.

(** X11.  Bounded fan-out: for [0 <= top_n] a built snapshot has at most
    [top_n] level-1 nodes, every one of them at most [top_n] level-2
    nodes, every one of those at most [top_n] level-3 nodes, hence at
    most [top_n]^3 level-3 nodes in all. *)
Theorem built_snapshot_fan_out :
  forall (F : facilities) (now : Z) (disk_mount : string) (top_n : Z) (data : snapshot),
    0 <= top_n ->
    build_hierarchical_data F now disk_mount top_n = Built data ->
    (length (level_1 data) <= Z.to_nat top_n)%nat /\
    (forall level1, In level1 (level_1 data) ->
       (length (level_2 level1) <= Z.to_nat top_n)%nat /\
       forall level2, In level2 (level_2 level1) ->
         (length (level_3 level2) <= Z.to_nat top_n)%nat) /\
    (level3_count (level_1 data) <= Z.to_nat top_n * Z.to_nat top_n * Z.to_nat top_n)%nat.
Proof.
  intros F now disk_mount top_n data Hn Hbuilt.
  destruct (built_levels F now disk_mount top_n Hn data Hbuilt) as [H1 H23].
  assert (L1 : (length (level_1 data) <= Z.to_nat top_n)%nat).
  { rewrite <- (length_map entry1), H1. apply top_n_of_length. }
  assert (L23 : forall level1, In level1 (level_1 data) ->
             (length (level_2 level1) <= Z.to_nat top_n)%nat /\
             forall level2, In level2 (level_2 level1) ->
               (length (level_3 level2) <= Z.to_nat top_n)%nat).
  { intros level1 Hin1. destruct (H23 level1 Hin1) as [H2 H3]. split.
    - rewrite <- (length_map entry2), H2. apply top_n_of_length.
    - intros level2 Hin2. rewrite <- (length_map entry3), (H3 level2 Hin2).
      apply top_n_of_length. }
  split; [exact L1 |]. split; [exact L23 |].
  unfold level3_count.
  assert (Hper : forall level1, In level1 (level_1 data) ->
             (length (flat_map level_3 (level_2 level1))
              <= Z.to_nat top_n * Z.to_nat top_n)%nat).
  { intros level1 Hin1. destruct (L23 level1 Hin1) as [L2 L3].
    pose proof (flat_map_length_le level_3 (level_2 level1) (Z.to_nat top_n) L3) as Hf.
    nia. }
  pose proof (flat_map_length_le _ (level_1 data) _ Hper) as Hall. nia.
Qed.

Lemma built_snapshot_fan_out_witness :
  exists data,
    build_hierarchical_data eight_dirs 100 "/" 5 = Built data /\
    (length (level_1 data) <= 5)%nat.
Proof.
  eexists. split; [reflexivity |].
  apply (proj1 (built_snapshot_fan_out eight_dirs 100 "/" 5 _ ltac:(lia) eq_refl)).
Defined.

(** X12.  Fallback: when the bulk tool yields nothing for the
    subdirectories of the mount, the snapshot is built with the
    per-directory calculator alone: it carries the mount and its size at
    the top, and every node at every level is a listed subdirectory of its
    parent with the size the calculator returns for it. *)
Theorem fallback_build_uses_calculator :
  forall (F : facilities) (now : Z) (disk_mount : string) (top_n : Z) (data : snapshot),
    0 <= top_n ->
    fast_get_dir_sizes F (siblings_of F disk_mount) = [] ->
    build_hierarchical_data F now disk_mount top_n = Built data ->
    s_root data = Some (disk_mount, size_with_cache F disk_mount) /\
    forall level1, In level1 (level_1 data) ->
      l1_size level1 = size_with_cache F (l1_path level1) /\
      In (l1_path level1) (siblings_of F disk_mount) /\
      forall level2, In level2 (level_2 level1) ->
        l2_size level2 = size_with_cache F (l2_path level2) /\
        In (l2_path level2) (siblings_of F (l1_path level1)) /\
        forall level3, In level3 (level_3 level2) ->
          l3_size level3 = size_with_cache F (l3_path level3) /\
          In (l3_path level3) (siblings_of F (l2_path level2)).
Proof.
  intros F now disk_mount top_n data Hn Hfast Hbuilt.
  destruct (built_fields F now disk_mount top_n data Hbuilt) as (_ & _ & Hroot).
  rewrite Hfast in Hroot. split; [exact Hroot |].
  destruct (built_levels F now disk_mount top_n Hn data Hbuilt) as [H1 H23].
  unfold measured in H1, H23. rewrite Hfast in H1, H23.
  assert (Hmem : forall (A : Type) (entry : A -> string * Z) (items : list A)
                        (parent : string) (x : A),
             map entry items = top_n_of top_n (individual F parent) ->
             In x items ->
             snd (entry x) = size_with_cache F (fst (entry x)) /\
             In (fst (entry x)) (siblings_of F parent)).
  { intros A entry items parent x Hmap Hin.
    apply (in_map entry) in Hin. rewrite Hmap in Hin.
    apply in_top_n_of in Hin. destruct (entry x) as [p s].
    now apply in_individual in Hin. }
  intros level1 Hin1. destruct (H23 level1 Hin1) as [H2 H3].
  destruct (Hmem _ entry1 _ _ level1 H1 Hin1) as [Hs1 Hp1].
  split; [exact Hs1 |]. split; [exact Hp1 |].
  intros level2 Hin2.
  destruct (Hmem _ entry2 _ _ level2 H2 Hin2) as [Hs2 Hp2].
  split; [exact Hs2 |]. split; [exact Hp2 |].
  intros level3 Hin3.
  destruct (Hmem _ entry3 _ _ level3 (H3 level2 Hin2) Hin3) as [Hs3 Hp3].
  now split.
Qed.

Lemma fallback_build_uses_calculator_witness :
  let F := Facilities
             (fun p => if String.eqb p "/" then Some ["/a"; "/b"; "/c"] else Some [])
             (fun _ => None)
             eight_sizes
             (fun _ => Some (50 # 1)) in
  exists data,
    build_hierarchical_data F 100 "/" 2 = Built data /\
    s_root data = Some ("/", 40) /\
    level_1 data = [L1 "/b" 80 []; L1 "/a" 30 []].
Proof.
  intros F. eexists. split; [reflexivity |]. split; [| reflexivity].
  apply (proj1 (fallback_build_uses_calculator F 100 "/" 2 _
                  ltac:(lia) eq_refl eq_refl)).
Defined.

(** ** From a rebuild to the next scheduling pass *)

Section RebuildToSchedule.

Lemma finished_then_pass (s : sched) (m : string) (t0 : nat) :
  sched_inv s -> running s !! t0 = Some m ->
  (forall t, running (thread_finishes s t0) !! t <> Some m) /\
  active_threads (cleanup (thread_finishes s t0)) !! m = None /\
  forall o,
    o_mount o = m ->
    is_cache_outdated (o_now o) (o_ts o) DISK_CACHE_VALIDITY_SECONDS = true ->
    running (schedule_pass (thread_finishes s t0) [o]) !! next_thread s = Some m.
Proof.
  intros Hinv Hrun.
  assert (Hgone : forall t, running (thread_finishes s t0) !! t <> Some m).
  { intros t H. simpl in H. apply lookup_delete_Some in H. destruct H as [Hne H].
    apply Hne. now apply (sched_inv_unique s m t0 t Hinv). }
  assert (Hfree : active_threads (cleanup (thread_finishes s t0)) !! m = None).
  { simpl. apply map_lookup_filter_None. right. intros [t st] Hm.
    destruct Hinv as [Hact _]. destruct (Hact _ _ Hrun) as [st0 Hst0].
    rewrite Hst0 in Hm. injection Hm as <- <-.
    simpl. unfold is_alive. simpl. now rewrite lookup_delete_eq. }
  split; [exact Hgone |]. split; [exact Hfree |].
  intros o Ho Hold. unfold schedule_pass. simpl. unfold schedule_one.
  rewrite Ho, Hold, Hfree, orb_true_r.
  rewrite bool_decide_eq_false_2 by (intros [x Hx]; discriminate).
  simpl. apply lookup_insert_eq.
Qed.

Lemma load_cache_missing (store : gmap string snapshot) (mount : string) :
  store !! cache_file_of mount = None -> load_cache store mount = (None, None).
Proof. intros H. unfold load_cache. now rewrite H. Qed.

End RebuildToSchedule.

(** X13.  A rebuild that succeeds is what the next pass reads: after
    [update_cache_thread] has written its snapshot, [load_cache] returns
    the level-1 list of that snapshot with its timestamp; a scheduling
    pass starts no rebuild for the mount while the snapshot is at most
    three hours old, and starts one, if none is in flight, once it is
    older. *)
Theorem rebuild_then_load_cache :
  forall (F : facilities) (now : Z) (disk_mount : string) (top_n : Z)
         (store : gmap string snapshot) (data : snapshot),
    build_hierarchical_data F now disk_mount top_n = Built data ->
    level_1 data <> [] ->
    now <> 0 ->
    let store' := apply_effects store (update_cache_thread F now disk_mount top_n) in
    load_cache store' disk_mount = (Some (level_1 data), Some now) /\
    (forall s now' start,
        now' - now <= DISK_CACHE_VALIDITY_SECONDS ->
        schedule_one s (observe store' disk_mount now' start) = s) /\
    (forall s now' start,
        DISK_CACHE_VALIDITY_SECONDS < now' - now ->
        active_threads s !! disk_mount = None ->
        schedule_one s (observe store' disk_mount now' start)
        = start_rebuild s disk_mount start).
Proof.
  intros F now disk_mount top_n store data Hbuilt Hne Hnow store'.
  assert (Hload : load_cache store' disk_mount = (Some (level_1 data), Some now)).
  { subst store'.
    destruct (update_cache_thread_cases F now disk_mount top_n)
      as [(data' & Hb & _ & Hw) | [Hempty _]].
    - rewrite Hbuilt in Hb. injection Hb as <-. rewrite Hw.
      unfold apply_effects, load_cache. cbn [fold_left apply_effect].
      rewrite lookup_insert_eq.
      destruct (built_fields F now disk_mount top_n data Hbuilt) as (_ & Hts & _).
      rewrite Hts. apply Z.eqb_neq in Hnow. rewrite Hnow.
      destruct (level_1 data); [contradiction | reflexivity].
    - now destruct (Hne (Hempty data Hbuilt)). }
  split; [exact Hload |]. unfold observe, schedule_one. rewrite Hload.
  cbn [snd o_ts o_now o_mount o_start is_cache_outdated]. split.
  - intros s now' start Hfresh.
    assert (H : (now' - now >? DISK_CACHE_VALIDITY_SECONDS) = false)
      by (rewrite Z.gtb_ltb; apply Z.ltb_ge; exact Hfresh).
    now rewrite H.
  - intros s now' start Hold Hfree.
    assert (H : (now' - now >? DISK_CACHE_VALIDITY_SECONDS) = true)
      by (rewrite Z.gtb_ltb; apply Z.ltb_lt; exact Hold).
    rewrite H, Hfree.
    now rewrite bool_decide_eq_false_2 by (intros [x Hx]; discriminate).
Qed.

Lemma rebuild_then_load_cache_witness :
  let store := apply_effects ∅ (update_cache_thread eight_dirs 1700000000 "/" 5) in
  fst (load_cache store "/")
  = Some [L1 "/b" 80 []; L1 "/e" 70 []; L1 "/g" 60 []; L1 "/d" 50 []; L1 "/h" 40 []] /\
  schedule_one sched_init (observe store "/" 1700010800 1700010800) = sched_init.
Proof.
  intros store. subst store.
  destruct (rebuild_then_load_cache eight_dirs 1700000000 "/" 5 ∅ _ eq_refl
              ltac:(discriminate) ltac:(discriminate)) as (Hload & Hfresh & _).
  split.
  - rewrite Hload. reflexivity.
  - apply Hfresh. vm_compute. discriminate.
Defined.

(** X14.  Key [r]: afterwards the snapshot of the mount is gone, so
    [load_cache] returns nothing for it, and the mount is in
    [active_threads].  When the rebuild thread of the mount has returned
    but no scheduling pass has cleaned up since, the key removes the
    snapshot and starts nothing: no rebuild of the mount is alive until
    the next scheduling pass, which starts one. *)
Theorem refresh_key_drops_snapshot :
  forall (es : list event) (store : gmap string snapshot) (mount : string) (now : Z),
    let s := sched_run es in
    (load_cache (refresh_key store s mount now).1 mount = (None, None) /\
     is_Some (active_threads (refresh_key store s mount now).2 !! mount)) /\
    (forall t,
        running s !! t = Some mount ->
        let s1 := thread_finishes s t in
        (refresh_key store s1 mount now).2 = s1 /\
        (forall t', running s1 !! t' <> Some mount) /\
        forall now' start,
          running (schedule_pass s1
                     [observe (refresh_key store s1 mount now).1 mount now' start])
            !! next_thread s1 = Some mount).
Proof.
  intros es store mount now s. pose proof (sched_run_inv es) as Hinv. fold s in Hinv.
  assert (Hgone : forall s0, load_cache (refresh_key store s0 mount now).1 mount
                             = (None, None)).
  { intros s0. apply load_cache_missing. cbn [refresh_key fst]. apply lookup_delete_eq. }
  split.
  - split; [apply Hgone |]. cbn [refresh_key snd]. unfold manual_refresh.
    case_bool_decide as Hc; [exact Hc |]. cbn [start_rebuild active_threads].
    rewrite lookup_insert_eq. now eexists.
  - intros t Hrun s1.
    destruct (finished_then_pass s mount t Hinv Hrun) as (Hnone & _ & Hnext).
    split; [| split; [exact Hnone |]].
    + cbn [refresh_key snd]. unfold manual_refresh.
      case_bool_decide as Hc; [reflexivity |]. destruct Hc.
      destruct Hinv as [Hact _]. destruct (Hact _ _ Hrun) as [st Hst].
      subst s1. cbn [thread_finishes active_threads]. eexists. exact Hst.
    + intros now' start. apply Hnext; [reflexivity |].
      unfold observe. rewrite Hgone. reflexivity.
Qed.

Lemma refresh_key_drops_snapshot_witness :
  let es := [Pass [Obs "/" None 100 100]] in
  let store : gmap string snapshot :=
    {[ "cache__.json" := Snapshot "/" 5 (40 # 1) None [L1 "/a" 7 []] ]} in
  let s1 := thread_finishes (sched_run es) 0 in
  (refresh_key store s1 "/" 200).2 = s1 /\
  load_cache (refresh_key store s1 "/" 200).1 "/" = (None, None).
Proof.
  intros es store s1.
  destruct (refresh_key_drops_snapshot es store "/" 200) as [_ Hq].
  destruct (Hq 0%nat ltac:(vm_compute; reflexivity)) as (Hsame & _ & _).
  split; [exact Hsame |].
  apply load_cache_missing. cbn [refresh_key fst]. apply lookup_delete_eq.
Defined.

(** ** The scheduler makes progress *)

Section SchedulerProgress.

Lemma markers_inv_init : markers_inv sched_init.
Proof. intros m t st H. simpl in H. now rewrite lookup_empty in H. Qed.

Lemma start_rebuild_markers (s : sched) (mount : string) (start_time : Z) :
  sched_inv s -> markers_inv s -> markers_inv (start_rebuild s mount start_time).
Proof.
  intros Hinv Hm m t st H. pose proof (running_fresh s Hinv) as Hfresh.
  cbn [start_rebuild active_threads running next_thread] in *.
  apply lookup_insert_Some in H. destruct H as [[<- [= <- <-]] | [Hne H]].
  - split; [lia |]. intros m'. rewrite lookup_insert_eq. now intros [= <-].
  - destruct (Hm _ _ _ H) as [Hlt Hown]. split; [lia |].
    intros m'. rewrite lookup_insert_ne by lia. apply Hown.
Qed.

Lemma schedule_one_markers (s : sched) (o : observation) :
  sched_inv s -> markers_inv s -> markers_inv (schedule_one s o).
Proof.
  intros Hinv Hm. unfold schedule_one. destruct (_ && _); [| exact Hm].
  now apply start_rebuild_markers.
Qed.

Lemma cleanup_markers (s : sched) : markers_inv s -> markers_inv (cleanup s).
Proof.
  intros Hm m t st H. cbn [cleanup active_threads running next_thread] in *.
  apply map_lookup_filter_Some in H. destruct H as [H _]. now apply (Hm m t st).
Qed.

Lemma sched_step_markers (s : sched) (e : event) :
  sched_inv s -> markers_inv s -> markers_inv (sched_step s e).
Proof.
  intros Hinv Hm. destruct e as [disks | mount now | thread]; simpl.
  - unfold schedule_pass.
    assert (H : sched_inv (cleanup s) /\ markers_inv (cleanup s))
      by (split; [now apply cleanup_inv | now apply cleanup_markers]).
    revert H. generalize (cleanup s).
    induction disks as [|o disks IH]; intros s0 [Hi0 Hm0]; [exact Hm0 |].
    apply IH. split; [now apply schedule_one_inv | now apply schedule_one_markers].
  - unfold manual_refresh. case_bool_decide; [exact Hm |].
    now apply start_rebuild_markers.
  - intros m t st H. cbn [thread_finishes active_threads running next_thread] in *.
    destruct (Hm _ _ _ H) as [Hlt Hown]. split; [exact Hlt |].
    intros m' Hr. apply lookup_delete_Some in Hr. destruct Hr as [_ Hr]. now apply Hown.
Qed.

Lemma sched_run_markers (es : list event) : markers_inv (sched_run es).
Proof.
  unfold sched_run.
  assert (H : sched_inv sched_init /\ markers_inv sched_init)
    by (split; [apply sched_inv_init | apply markers_inv_init]).
  revert H. generalize sched_init.
  induction es as [|e es IH]; intros s [Hi Hm]; [exact Hm |].
  apply IH. split; [now apply sched_step_inv | now apply sched_step_markers].
Qed.

Lemma cleanup_marked_alive (s : sched) : markers_inv s -> marked_alive (cleanup s).
Proof.
  intros Hm m t st H. cbn [cleanup active_threads running] in *.
  apply map_lookup_filter_Some in H. destruct H as [H Halive].
  cbn [fst snd] in Halive. unfold is_alive in Halive.
  destruct (running s !! t) as [m'|] eqn:Hr; [| discriminate].
  destruct (Hm _ _ _ H) as [_ Hown]. now rewrite (Hown m' Hr).
Qed.

Lemma schedule_one_marked_alive (s : sched) (o : observation) :
  sched_inv s -> markers_inv s -> marked_alive s -> marked_alive (schedule_one s o).
Proof.
  intros Hinv Hm Ha. unfold schedule_one. destruct (_ && _); [| exact Ha].
  intros m t st H. cbn [start_rebuild active_threads running] in *.
  apply lookup_insert_Some in H. destruct H as [[<- [= <- <-]] | [Hne H]].
  - apply lookup_insert_eq.
  - destruct (Hm _ _ _ H) as [Hlt _].
    rewrite lookup_insert_ne by lia. now apply (Ha m t st).
Qed.

Lemma schedule_one_marks_stale (s : sched) (o : observation) :
  is_cache_outdated (o_now o) (o_ts o) DISK_CACHE_VALIDITY_SECONDS = true ->
  is_Some (active_threads (schedule_one s o) !! o_mount o).
Proof.
  intros Hold. unfold schedule_one. rewrite Hold, orb_true_r. cbn [andb].
  case_bool_decide as Hc; cbn [negb]; [exact Hc |].
  cbn [start_rebuild active_threads]. rewrite lookup_insert_eq. now eexists.
Qed.

Lemma schedule_one_keeps_marker (s : sched) (o : observation) (m : string) :
  is_Some (active_threads s !! m) -> is_Some (active_threads (schedule_one s o) !! m).
Proof.
  intros Hm. unfold schedule_one. destruct (_ && _); [| exact Hm].
  cbn [start_rebuild active_threads].
  destruct (decide (o_mount o = m)) as [-> | Hne].
  - rewrite lookup_insert_eq. now eexists.
  - now rewrite lookup_insert_ne.
Qed.

Lemma schedule_loop_progress (disks : list observation) (s : sched) :
  sched_inv s -> markers_inv s -> marked_alive s ->
  marked_alive (fold_left schedule_one disks s) /\
  (forall m, is_Some (active_threads s !! m) ->
             is_Some (active_threads (fold_left schedule_one disks s) !! m)) /\
  forall o, In o disks ->
    is_cache_outdated (o_now o) (o_ts o) DISK_CACHE_VALIDITY_SECONDS = true ->
    is_Some (active_threads (fold_left schedule_one disks s) !! o_mount o).
Proof.
  revert s. induction disks as [|o0 disks IH]; intros s Hinv Hm Ha.
  - split; [exact Ha |]. split; [trivial | contradiction].
  - cbn [fold_left].
    destruct (IH (schedule_one s o0) (schedule_one_inv s o0 Hinv)
                 (schedule_one_markers s o0 Hinv Hm)
                 (schedule_one_marked_alive s o0 Hinv Hm Ha)) as (Ha' & Hkeep & Hnew).
    split; [exact Ha' |]. split.
    + intros m Hmark. now apply Hkeep, schedule_one_keeps_marker.
    + intros o [<- | Hin] Hold; [| now apply Hnew].
      now apply Hkeep, schedule_one_marks_stale.
Qed.

Lemma schedule_one_fresh (s : sched) (o : observation) (t : nat) (m : string) :
  sched_inv s ->
  (o_mount o = m ->
   is_cache_outdated (o_now o) (o_ts o) DISK_CACHE_VALIDITY_SECONDS = false) ->
  running (schedule_one s o) !! t = Some m -> running s !! t = Some m.
Proof.
  intros Hinv Hfresh. unfold schedule_one.
  destruct (decide (o_mount o = m)) as [Heq | Hne].
  - pose proof (Hfresh Heq) as Hf.
    destruct (o_ts o) as [ts|]; [| discriminate Hf].
    rewrite Hf. trivial.
  - destruct (_ && _); [| trivial].
    intros H. now apply (start_rebuild_other s (o_mount o) m (o_start o) t Hinv Hne).
Qed.

End SchedulerProgress.

(** X15.  After a scheduling pass, every mount that the pass saw without
    a snapshot, or with one older than three hours, has exactly one live
    rebuild thread; and a mount that the pass saw only with a snapshot of
    at most three hours gets no rebuild thread from the pass. *)
Theorem scheduling_pass_progress :
  forall (es : list event) (disks : list observation),
    let s := sched_run es in
    let s' := schedule_pass s disks in
    (forall o,
        In o disks ->
        is_cache_outdated (o_now o) (o_ts o) DISK_CACHE_VALIDITY_SECONDS = true ->
        exists t,
          running s' !! t = Some (o_mount o) /\
          forall t', running s' !! t' = Some (o_mount o) -> t' = t) /\
    (forall m,
        (forall o, In o disks -> o_mount o = m ->
                   is_cache_outdated (o_now o) (o_ts o) DISK_CACHE_VALIDITY_SECONDS
                   = false) ->
        forall t, running s' !! t = Some m -> running s !! t = Some m).
Proof.
  intros es disks s s'.
  pose proof (sched_run_inv es) as Hinv. pose proof (sched_run_markers es) as Hm.
  fold s in Hinv, Hm.
  pose proof (cleanup_inv s Hinv) as Hinv0.
  pose proof (cleanup_markers s Hm) as Hm0.
  pose proof (cleanup_marked_alive s Hm) as Ha0.
  assert (Hinv' : sched_inv s') by (apply schedule_loop_inv, Hinv0).
  split.
  - intros o Hin Hold.
    destruct (schedule_loop_progress disks (cleanup s) Hinv0 Hm0 Ha0) as (Ha' & _ & Hnew).
    destruct (Hnew o Hin Hold) as [[t st] Hmark].
    exists t. split; [now apply (Ha' _ _ st) |].
    intros t' Ht'. apply (sched_inv_unique s' (o_mount o) t' t Hinv' Ht').
    now apply (Ha' _ _ st).
  - intros m Hfresh t. subst s'. unfold schedule_pass.
    change (running s) with (running (cleanup s)).
    revert Hinv0 Hfresh. generalize (cleanup s). clear.
    induction disks as [|o disks IH]; intros s0 Hinv0 Hfresh; [trivial |].
    cbn [fold_left]. intros H.
    apply (schedule_one_fresh s0 o t m Hinv0).
    + intros Heq. apply Hfresh; [now left | exact Heq].
    + apply IH; [now apply schedule_one_inv | | exact H].
      intros o' Hin'. apply Hfresh. now right.
Qed.

Lemma scheduling_pass_progress_witness :
  let disks := [Obs "/" None 100 100; Obs "/mnt/d" (Some 50) 20000 20000;
                Obs "/mnt/e" (Some 19000) 20000 20000] in
  (exists t, running (schedule_pass (sched_run []) disks) !! t = Some "/mnt/d") /\
  (forall t, running (schedule_pass (sched_run []) disks) !! t <> Some "/mnt/e").
Proof.
  intros disks.
  destruct (scheduling_pass_progress [] disks) as [Hstale Hfresh]. split.
  - destruct (Hstale (Obs "/mnt/d" (Some 50) 20000 20000)
                ltac:(right; left; reflexivity) ltac:(vm_compute; reflexivity))
      as (t & Ht & _).
    now exists t.
  - intros t Ht. apply (Hfresh "/mnt/e") in Ht.
    + vm_compute in Ht. discriminate Ht.
    + intros o [<- | [<- | [<- | []]]]; intros Heq; try discriminate Heq.
      vm_compute. reflexivity.
Defined.

(** ** Names of the snapshot files *)

Section CacheFileNames.

Lemma string_map_length (f : ascii -> ascii) (s : string) :
  String.length (string_map f s) = String.length s.
Proof. induction s as [|c s IH]; simpl; [reflexivity | now rewrite IH]. Qed.

Lemma safe_name_no_separator (m : string) (c : ascii) :
  In c (list_ascii_of_string (safe_name m)) -> is_separator c = false.
Proof.
  unfold safe_name. induction m as [|c0 m IH]; simpl; [contradiction |].
  intros [<- | Hin]; [| now apply IH].
  fold (is_separator c0). destruct (is_separator c0) eqn:E; [reflexivity | exact E].
Qed.

Lemma safe_name_fixed (m : string) :
  (forall c, In c (list_ascii_of_string m) -> is_separator c = false) ->
  safe_name m = m.
Proof.
  unfold safe_name. induction m as [|c0 m IH]; simpl; [reflexivity |].
  intros H. fold (is_separator c0). rewrite (H c0 (or_introl eq_refl)).
  f_equal. apply IH. intros c Hc. apply H. now right.
Qed.

Lemma string_length_append (a b : string) :
  String.length (a ++ b) = (String.length a + String.length b)%nat.
Proof. induction a as [|c a IH]; simpl; [reflexivity | now rewrite IH]. Qed.

Lemma string_append_cancel_r (a b s : string) : (a ++ s = b ++ s)%string -> a = b.
Proof.
  revert b. induction a as [|c a IH]; intros [|c' b] H; simpl in H.
  - reflexivity.
  - apply (f_equal String.length) in H.
    rewrite !string_length_append in H. simpl in H.
    rewrite ?string_length_append in H. lia.
  - apply (f_equal String.length) in H.
    rewrite !string_length_append in H. simpl in H.
    rewrite ?string_length_append in H. lia.
  - injection H as -> H. f_equal. now apply IH.
Qed.

Lemma cache_file_of_inj (m1 m2 : string) :
  cache_file_of m1 = cache_file_of m2 <-> safe_name m1 = safe_name m2.
Proof.
  unfold cache_file_of. split.
  - intros H. simpl in H. injection H as H.
    change (safe_name m1 ++ ".json" = safe_name m2 ++ ".json")%string in H.
    now apply string_append_cancel_r in H.
  - now intros ->.
Qed.

End CacheFileNames.

(** X16.  The name of a snapshot file: [safe_name] keeps the length of
    the mount and leaves none of the characters slash, colon and
    backslash; two mounts share one snapshot file exactly when their safe
    names are equal, so a mount and the same text with underscores for
    its separators share one; and a rebuild writes no other file than the
    one of its mount. *)
Theorem snapshot_file_names :
  forall (m1 m2 : string),
    String.length (safe_name m1) = String.length m1 /\
    (forall c, In c (list_ascii_of_string (safe_name m1)) -> is_separator c = false) /\
    (cache_file_of m1 = cache_file_of m2 <-> safe_name m1 = safe_name m2) /\
    cache_file_of (safe_name m1) = cache_file_of m1 /\
    (forall F now top_n (store : gmap string snapshot) f,
        f <> cache_file_of m1 ->
        apply_effects store (update_cache_thread F now m1 top_n) !! f = store !! f).
Proof.
  intros m1 m2. split; [apply string_map_length |].
  split; [apply safe_name_no_separator |].
  split; [apply cache_file_of_inj |]. split.
  - apply cache_file_of_inj. apply safe_name_fixed, safe_name_no_separator.
  - intros F now top_n store f Hne.
    destruct (update_cache_thread_cases F now m1 top_n)
      as [(data & _ & _ & ->) | [_ ->]]; [| reflexivity].
    unfold apply_effects. cbn [fold_left apply_effect].
    apply lookup_insert_ne. congruence.
Qed.

Lemma snapshot_file_names_witness :
  cache_file_of "/mnt/data" = "cache__mnt_data.json" /\
  cache_file_of "/mnt/data" = cache_file_of "/mnt_data".
Proof.
  split; [reflexivity |].
  apply (proj2 (proj1 (proj2 (proj2 (snapshot_file_names "/mnt/data" "/mnt_data"))))).
  reflexivity.
Defined.

(** ** Keys and pages of the paginated view *)

Section Pages.

Lemma index_of_mount_range (mounts : list string) (last_mount : string) (i j : Z) :
  index_of_mount mounts last_mount i = Some j ->
  i <= j < i + Z.of_nat (length mounts) /\
  nth (Z.to_nat (j - i)) mounts EmptyString = last_mount /\
  forall n, (n < Z.to_nat (j - i))%nat -> nth n mounts EmptyString <> last_mount.
Proof.
  revert i. induction mounts as [|m rest IH]; intros i; simpl; [discriminate |].
  destruct (String.eqb m last_mount) eqn:E.
  - intros [= <-]. apply String.eqb_eq in E. rewrite Z.sub_diag. simpl.
    split; [lia |]. split; [exact E |]. intros n Hn. lia.
  - intros H. destruct (IH (i + 1) H) as (Hr & Hnth & Hfirst).
    split; [lia |].
    replace (Z.to_nat (j - i)) with (S (Z.to_nat (j - (i + 1)))) by lia.
    split; [exact Hnth |]. intros [|n] Hn.
    + simpl. apply String.eqb_neq in E. exact E.
    + simpl. apply Hfirst. lia.
Qed.

Lemma index_of_mount_found (mounts : list string) (last_mount : string) (i : Z) :
  In last_mount mounts -> exists j, index_of_mount mounts last_mount i = Some j.
Proof.
  revert i. induction mounts as [|m rest IH]; intros i; [contradiction |].
  simpl. destruct (String.eqb m last_mount) eqn:E; [eauto |].
  intros [-> | Hin]; [rewrite String.eqb_refl in E; discriminate | now apply IH].
Qed.

End Pages.

(** X17.  Whatever key is pressed on one of [total_pages > 0] pages, the
    page stays an index of a page; the number of levels moves by at most
    one and stays within 1 to 3 once it is there; [n] followed by [p], and
    [p] followed by [n], come back to the page; only [q] and ESC, in
    either case, leave the view. *)
Theorem keys_keep_page_and_levels :
  forall (total_pages current_page current_levels : Z) (key : option ascii),
    0 < total_pages ->
    0 <= current_page < total_pages ->
    (forall page levels,
        handle_key total_pages current_page current_levels key = Stay page levels ->
        0 <= page < total_pages /\
        -1 <= levels - current_levels <= 1 /\
        (1 <= current_levels <= 3 -> 1 <= levels <= 3)) /\
    (forall page levels,
        handle_key total_pages current_page current_levels (Some "n"%char)
        = Stay page levels ->
        handle_key total_pages page levels (Some "p"%char)
        = Stay current_page current_levels) /\
    (forall page levels,
        handle_key total_pages current_page current_levels (Some "p"%char)
        = Stay page levels ->
        handle_key total_pages page levels (Some "n"%char)
        = Stay current_page current_levels) /\
    (handle_key total_pages current_page current_levels key = Leave <->
     exists c, key = Some c /\
               (ascii_lower c = "q"%char \/ ascii_lower c = "027"%char)).
Proof.
  intros total_pages current_page current_levels key Hpos Hpage.
  split; [| split; [| split]].
  - intros page levels. unfold handle_key. destruct key as [c|].
    + destruct (_ || _); [discriminate |].
      destruct (Ascii.eqb (ascii_lower c) "n").
      { intros [= <- <-]. split; [apply Z.mod_pos_bound; lia | lia]. }
      destruct (Ascii.eqb (ascii_lower c) "p").
      { intros [= <- <-]. split; [apply Z.mod_pos_bound; lia | lia]. }
      destruct (Ascii.eqb c "+").
      { intros [= <- <-]. destruct (current_levels <? 3) eqn:E.
        - apply Z.ltb_lt in E. lia.
        - lia. }
      destruct (Ascii.eqb c "-").
      { intros [= <- <-]. destruct (current_levels >? 1) eqn:E.
        - rewrite Z.gtb_ltb in E. apply Z.ltb_lt in E. lia.
        - lia. }
      intros [= <- <-]. lia.
    + intros [= <- <-]. lia.
  - intros page levels. cbn. intros [= <- <-]. f_equal.
    destruct (Z.eq_dec (current_page + 1) total_pages) as [E | E].
    + rewrite E, Z.mod_same by lia.
      symmetry. apply (Z.mod_unique _ _ (-1)); lia.
    + rewrite (Z.mod_small (current_page + 1)) by lia.
      replace (current_page + 1 - 1) with current_page by lia.
      apply Z.mod_small. lia.
  - intros page levels. cbn. intros [= <- <-]. f_equal.
    destruct (Z.eq_dec current_page 0) as [E | E].
    + subst current_page.
      assert (Hm : (0 - 1) mod total_pages = total_pages - 1)
        by (symmetry; apply (Z.mod_unique _ _ (-1)); lia).
      rewrite Hm. replace (total_pages - 1 + 1) with total_pages by lia.
      apply Z.mod_same. lia.
    + rewrite (Z.mod_small (current_page - 1)) by lia.
      replace (current_page - 1 + 1) with current_page by lia.
      apply Z.mod_small. lia.
  - unfold handle_key. destruct key as [c|].
    + destruct (Ascii.eqb (ascii_lower c) "q") eqn:Eq;
        [| destruct (Ascii.eqb (ascii_lower c) "027") eqn:Ee]; cbn [orb].
      * apply Ascii.eqb_eq in Eq. split; [| reflexivity].
        intros _. exists c. split; [reflexivity | now left].
      * apply Ascii.eqb_eq in Ee. split; [| reflexivity].
        intros _. exists c. split; [reflexivity | now right].
      * apply Ascii.eqb_neq in Eq, Ee. split.
        -- destruct (Ascii.eqb (ascii_lower c) "n"); [discriminate |].
           destruct (Ascii.eqb (ascii_lower c) "p"); [discriminate |].
           destruct (Ascii.eqb c "+"); [discriminate |].
           destruct (Ascii.eqb c "-"); discriminate.
        -- intros (c' & [= <-] & [H | H]); contradiction.
    + split; [discriminate |]. intros (c & H & _). discriminate H.
Qed.

Lemma keys_keep_page_and_levels_witness :
  handle_key 3 0 1 (Some "p"%char) = Stay 2 1 /\
  handle_key 3 2 1 (Some "n"%char) = Stay 0 1.
Proof.
  split; [reflexivity |].
  apply (proj1 (proj2 (proj2 (keys_keep_page_and_levels 3 0 1 None
                                ltac:(lia) ltac:(lia)))) 2 1).
  reflexivity.
Defined.

(** X18.  The page shown first is an index of a page when there is at
    least one; when the mount remembered in the preferences is among the
    pages, it is the first page of that mount; otherwise it is page 0. *)
Theorem initial_page_spec :
  forall (mounts : list string) (last_mount : option string),
    mounts <> [] ->
    0 <= initial_page mounts last_mount < Z.of_nat (length mounts) /\
    (forall m,
        last_mount = Some m -> m <> EmptyString -> In m mounts ->
        nth (Z.to_nat (initial_page mounts last_mount)) mounts EmptyString = m /\
        forall n, (n < Z.to_nat (initial_page mounts last_mount))%nat ->
                  nth n mounts EmptyString <> m) /\
    (forall m, last_mount = Some m -> ~ In m mounts ->
               initial_page mounts last_mount = 0).
Proof.
  intros mounts last_mount Hne.
  assert (Hlen : 0 < Z.of_nat (length mounts)) by (destruct mounts; [contradiction | simpl; lia]).
  split; [| split].
  - unfold initial_page. destruct last_mount as [[|c m]|]; try lia.
    destruct (index_of_mount mounts (String c m) 0) as [j|] eqn:E; [| lia].
    apply index_of_mount_range in E. lia.
  - intros m -> Hm Hin. unfold initial_page.
    destruct m as [|c m]; [contradiction |].
    destruct (index_of_mount_found mounts (String c m) 0 Hin) as [j E].
    rewrite E. apply index_of_mount_range in E.
    rewrite Z.sub_0_r in E. now destruct E as (_ & Hnth & Hfirst).
  - intros m -> Hnot. unfold initial_page. destruct m as [|c m]; [reflexivity |].
    destruct (index_of_mount mounts (String c m) 0) as [j|] eqn:E; [| reflexivity].
    apply index_of_mount_range in E. destruct E as (Hr & Hnth & _).
    destruct Hnot. rewrite <- Hnth. apply nth_In. lia.
Qed.

Lemma initial_page_spec_witness :
  nth (Z.to_nat (initial_page ["/"; "/mnt/d"; "/mnt/e"] (Some "/mnt/d")))
      ["/"; "/mnt/d"; "/mnt/e"] EmptyString = "/mnt/d".
Proof.
  apply (proj1 (proj1 (proj2 (initial_page_spec ["/"; "/mnt/d"; "/mnt/e"]
                                (Some "/mnt/d") ltac:(discriminate)))
                  "/mnt/d" eq_refl ltac:(discriminate)
                  ltac:(right; left; reflexivity))).
Defined.

(** ** Colours and sizes *)

Section Colours.

Lemma Qle_bool_false (x y : Q) : Qle_bool x y = false <-> (y < x)%Q.
Proof.
  split.
  - intros H. apply Qnot_le_lt. intros Hle. apply Qle_bool_iff in Hle. congruence.
  - intros H. destruct (Qle_bool x y) eqn:E; [| reflexivity].
    apply Qle_bool_iff in E. apply Qlt_not_le in H. contradiction.
Qed.

Lemma severity_thresholds (percent : Q) :
  (severity (get_color_by_usage percent) = 0%nat <-> (percent < 50)%Q) /\
  (severity (get_color_by_usage percent) = 1%nat <-> (50 <= percent < 80)%Q) /\
  (severity (get_color_by_usage percent) = 2%nat <-> (80 <= percent < 90)%Q) /\
  (severity (get_color_by_usage percent) = 3%nat <-> (90 <= percent)%Q).
Proof.
  unfold get_color_by_usage.
  destruct (Qle_bool 50 percent) eqn:E50; cbn [negb].
  - destruct (Qle_bool 80 percent) eqn:E80; cbn [negb].
    + destruct (Qle_bool 90 percent) eqn:E90; cbn [negb];
        change (severity RED_NEON) with 3%nat;
        change (severity ORANGE_NEON) with 2%nat.
      * apply Qle_bool_iff in E50, E80, E90.
        repeat split; try discriminate; intros; lra.
      * apply Qle_bool_iff in E50, E80. apply Qle_bool_false in E90.
        repeat split; try discriminate; intros; lra.
    + change (severity YELLOW_NEON) with 1%nat.
      apply Qle_bool_iff in E50. apply Qle_bool_false in E80.
      repeat split; try discriminate; intros; lra.
  - change (severity GREEN_NEON) with 0%nat. apply Qle_bool_false in E50.
    repeat split; try discriminate; intros; lra.
Qed.

End Colours.

(** X19.  The colour of a usage follows the thresholds 50, 80 and 90
    without a gap, each threshold belonging to the more alarming side,
    and a higher usage never gets a less alarming colour. *)
Theorem usage_colour_monotone :
  forall (p q : Q),
    ((severity (get_color_by_usage p) = 0%nat <-> (p < 50)%Q) /\
     (severity (get_color_by_usage p) = 1%nat <-> (50 <= p < 80)%Q) /\
     (severity (get_color_by_usage p) = 2%nat <-> (80 <= p < 90)%Q) /\
     (severity (get_color_by_usage p) = 3%nat <-> (90 <= p)%Q)) /\
    ((p <= q)%Q ->
     (severity (get_color_by_usage p) <= severity (get_color_by_usage q))%nat).
Proof.
  intros p q. split; [apply severity_thresholds |].
  intros Hle.
  destruct (severity_thresholds p) as (P0 & P1 & P2 & P3).
  destruct (severity_thresholds q) as (Q0 & Q1 & Q2 & Q3).
  assert (Hp : (severity (get_color_by_usage p) <= 3)%nat).
  { unfold severity. repeat destruct (String.eqb _ _); lia. }
  assert (Hq : (severity (get_color_by_usage q) <= 3)%nat).
  { unfold severity. repeat destruct (String.eqb _ _); lia. }
  destruct (severity (get_color_by_usage p)) as [|[|[|[|n]]]];
    destruct (severity (get_color_by_usage q)) as [|[|[|[|n']]]]; try lia;
    repeat match goal with
           | H : ?a = ?a <-> _ |- _ => apply proj1 in H; specialize (H eq_refl)
           end;
    lra.
Qed.

Lemma usage_colour_monotone_witness :
  (severity (get_color_by_usage (79 # 1)) <= severity (get_color_by_usage (80 # 1)))%nat.
Proof.
  apply (proj2 (usage_colour_monotone (79 # 1) (80 # 1))). lra.
Defined.

Section Sizes.




End Sizes.


